(** * The AI board bot (src/app.js): a shallow embedding and its properties

    The program is a Slack Bolt application.  Its handlers are modelled as
    computations over the session store ([userContexts]) that emit a trace
    of the calls made to the platform, to the completion API and to the
    console; the outcome of every external call is supplied by a [world]
    record, so that a rejected promise is an input of the model and the
    [try]/[catch] blocks of the source are executed as written.

    Strings are sequences of UTF-16 code units, and [JSON.stringify],
    [JSON.parse], truthiness and string conversion follow ECMA-262.  The
    construction of the Bolt and OpenAI clients, the health route, the
    global error handler and [app.start] talk to no session and build no
    view; they are left out. *)

From Stdlib Require Import String Ascii NArith ZArith List Lia.
From stdpp Require Import base option list gmap.
Import ListNotations.

Local Open Scope N_scope.

(** ** JavaScript strings

    A JavaScript string is a sequence of UTF-16 code units; a code unit is
    an [N] below [2^16]. *)

Abbreviation jsstring := (list N).

Definition code_unit (c : N) : Prop := c < 65536.
Definition well_formed (s : jsstring) : Prop := Forall code_unit s.

Definition is_high_surrogate (c : N) : bool := (55296 <=? c) && (c <=? 56319).
Definition is_low_surrogate (c : N) : bool := (56320 <=? c) && (c <=? 57343).

(** Source literals are written as UTF-8 text and decoded to code units:
    [utf16_of_code_point] is UTF16EncodeCodePoint, [utf16_of_utf8] decodes
    the bytes of a literal (an ill-formed byte gives U+FFFD). *)

Definition utf16_of_code_point (cp : N) : jsstring :=
  if cp <? 65536 then [cp]
  else [55296 + (cp - 65536) / 1024; 56320 + (cp - 65536) mod 1024].

Definition is_continuation (b : N) : bool := (128 <=? b) && (b <? 192).

Fixpoint utf16_of_utf8 (bs : list N) : jsstring :=
  match bs with
  | [] => []
  | b0 :: r0 =>
    if b0 <? 128 then b0 :: utf16_of_utf8 r0
    else if (192 <=? b0) && (b0 <? 224) then
      match r0 with
      | b1 :: r1 =>
        if is_continuation b1
        then utf16_of_code_point ((b0 - 192) * 64 + (b1 - 128)) ++ utf16_of_utf8 r1
        else 65533 :: utf16_of_utf8 r0
      | [] => [65533]
      end
    else if (224 <=? b0) && (b0 <? 240) then
      match r0 with
      | b1 :: b2 :: r2 =>
        if is_continuation b1 && is_continuation b2
        then utf16_of_code_point ((b0 - 224) * 4096 + (b1 - 128) * 64 + (b2 - 128))
               ++ utf16_of_utf8 r2
        else 65533 :: utf16_of_utf8 r0
      | _ => 65533 :: utf16_of_utf8 r0
      end
    else if (240 <=? b0) && (b0 <? 248) then
      match r0 with
      | b1 :: b2 :: b3 :: r3 =>
        if is_continuation b1 && is_continuation b2 && is_continuation b3
        then utf16_of_code_point
               ((b0 - 240) * 262144 + (b1 - 128) * 4096 + (b2 - 128) * 64 + (b3 - 128))
               ++ utf16_of_utf8 r3
        else 65533 :: utf16_of_utf8 r0
      | _ => 65533 :: utf16_of_utf8 r0
      end
    else 65533 :: utf16_of_utf8 r0
  end.

Fixpoint bytes_of_string (s : string) : list N :=
  match s with
  | EmptyString => []
  | String a r => N_of_ascii a :: bytes_of_string r
  end.

Definition lit (s : string) : jsstring := utf16_of_utf8 (bytes_of_string s).
Arguments lit : simpl never.

(** Code units the program's texts and the JSON grammar name. *)
Definition LF : N := 10.
Definition QUOTE : N := 34.
Definition BACKSLASH : N := 92.

(** ** Values

    The few JavaScript values the handlers compute with: a property read
    gives [VUndef], a string, or a member inherited from [Object.prototype]
    ([VNative]); a completion's content is a string or [null]. *)

Inductive val : Type :=
  | VUndef
  | VNull
  | VStr (s : jsstring)
  | VNative (name : jsstring).

(** ToBoolean. *)
Definition truthy (v : val) : bool :=
  match v with
  | VUndef | VNull => false
  | VStr s => match s with [] => false | _ => true end
  | VNative _ => true
  end.

(** [a || b]. *)
Definition js_or (a b : val) : val := if truthy a then a else b.

(** ToString, as a template literal applies it.  A function inherited
    from [Object.prototype] prints as Node prints a native function and
    the prototype object itself as [[object Object]]. *)
Definition to_string (v : val) : jsstring :=
  match v with
  | VUndef => lit "undefined"
  | VNull => lit "null"
  | VStr s => s
  | VNative name =>
    if decide (name = lit "__proto__") then lit "[object Object]"
    else if decide (name = lit "constructor") then lit "function Object() { [native code] }"
    else lit "function " ++ name ++ lit "() { [native code] }"
  end.

(** ** The fixed tables (src/app.js, lines 46-63)

    An object literal keeps its keys in insertion order; [Object.entries]
    and [Object.keys] iterate in that order, so a table is an association
    list. *)

Definition table := list (jsstring * jsstring).

Definition INDUSTRIES : table :=
  [ (lit "manufacturing", lit "製造業");
    (lit "construction", lit "建設業");
    (lit "retail", lit "小売業");
    (lit "agriculture", lit "農業");
    (lit "service", lit "サービス業");
    (lit "professional", lit "士業");
    (lit "medical", lit "医療");
    (lit "restaurant", lit "飲食業") ].

Definition CATEGORIES : table :=
  [ (lit "accounting", lit "経理");
    (lit "hr", lit "人事");
    (lit "admin", lit "総務");
    (lit "sales", lit "営業支援") ].

Definition Object_entries (t : table) : list (jsstring * jsstring) := t.
Definition Object_keys (t : table) : list jsstring := map fst t.

(** The string-keyed members of [Object.prototype], which every object
    literal inherits. *)
Definition Object_prototype_names : list jsstring :=
  [ lit "constructor"; lit "__defineGetter__"; lit "__defineSetter__";
    lit "hasOwnProperty"; lit "__lookupGetter__"; lit "__lookupSetter__";
    lit "isPrototypeOf"; lit "propertyIsEnumerable"; lit "toString";
    lit "valueOf"; lit "__proto__"; lit "toLocaleString" ].

Fixpoint own_property (t : table) (k : jsstring) : option jsstring :=
  match t with
  | [] => None
  | (k', v) :: r => if decide (k' = k) then Some v else own_property r k
  end.

(** [t[k]] for a key that is a string. *)
Definition get (t : table) (k : jsstring) : val :=
  match own_property t k with
  | Some v => VStr v
  | None => if decide (k ∈ Object_prototype_names) then VNative k else VUndef
  end.

(** ** JSON text

    [JSON.stringify] and [JSON.parse] as ECMA-262 defines them, over code
    units.  Numbers are kept as the lexeme that was read: their value is a
    double, which this development does not compute. *)

#[warnings="-register-all"]
Inductive json : Type :=
  | JNull
  | JBool (b : bool)
  | JNum (lexeme : jsstring)
  | JStr (s : jsstring)
  | JArr (elements : list json)
  | JObj (members : list (jsstring * json)).

(** *** Serialisation *)

Definition hex_digit (d : N) : N := if d <? 10 then 48 + d else 87 + d.

(** UnicodeEscape: a backslash, [u] and four lower-case hexadecimal digits. *)
Definition unicode_escape (c : N) : jsstring :=
  [ BACKSLASH; 117;
    hex_digit (c / 4096); hex_digit ((c / 256) mod 16);
    hex_digit ((c / 16) mod 16); hex_digit (c mod 16) ].

(** The escape of one code unit that is not half of a surrogate pair
    (QuoteJSONString, the table of two-character escapes first). *)
Definition quote_unit (c : N) : jsstring :=
  if c =? 8 then [BACKSLASH; 98]
  else if c =? 9 then [BACKSLASH; 116]
  else if c =? 10 then [BACKSLASH; 110]
  else if c =? 12 then [BACKSLASH; 102]
  else if c =? 13 then [BACKSLASH; 114]
  else if c =? QUOTE then [BACKSLASH; QUOTE]
  else if c =? BACKSLASH then [BACKSLASH; BACKSLASH]
  else if (c <? 32) || is_high_surrogate c || is_low_surrogate c then unicode_escape c
  else [c].

(** The code points of the string are visited in turn: a high surrogate
    followed by a low one is one code point and is copied; any other
    surrogate is alone and is escaped. *)
Fixpoint quote_body (s : jsstring) : jsstring :=
  match s with
  | [] => []
  | c :: r =>
    if is_high_surrogate c then
      match r with
      | d :: r' =>
        if is_low_surrogate d then c :: d :: quote_body r'
        else quote_unit c ++ quote_body r
      | [] => quote_unit c
      end
    else quote_unit c ++ quote_body r
  end.

Definition QuoteJSONString (s : jsstring) : jsstring :=
  QUOTE :: quote_body s ++ [QUOTE].

(** SerializeJSONObject without indentation, for an object whose own
    properties all hold strings: the only shape the program serialises. *)
Fixpoint serialize_members (ms : list (jsstring * jsstring)) : jsstring :=
  match ms with
  | [] => []
  | [(k, v)] => QuoteJSONString k ++ [58] ++ QuoteJSONString v
  | (k, v) :: r => QuoteJSONString k ++ [58] ++ QuoteJSONString v ++ [44] ++ serialize_members r
  end.

Definition JSON_stringify (ms : list (jsstring * jsstring)) : jsstring :=
  [123] ++ serialize_members ms ++ [125].

(** *** Parsing *)

Definition is_ws (c : N) : bool :=
  (c =? 32) || (c =? 9) || (c =? 10) || (c =? 13).

Fixpoint skip_ws (s : jsstring) : jsstring :=
  match s with
  | c :: r => if is_ws c then skip_ws r else s
  | [] => []
  end.

Definition hex_value (c : N) : option N :=
  if (48 <=? c) && (c <=? 57) then Some (c - 48)
  else if (97 <=? c) && (c <=? 102) then Some (c - 87)
  else if (65 <=? c) && (c <=? 70) then Some (c - 55)
  else None.

Definition hex4 (a b c d : N) : option N :=
  match hex_value a, hex_value b, hex_value c, hex_value d with
  | Some x, Some y, Some z, Some w => Some (((x * 16 + y) * 16 + z) * 16 + w)
  | _, _, _, _ => None
  end.

(** The escape after a backslash that is not [u]. *)
Definition simple_escape (e : N) : option N :=
  if e =? QUOTE then Some QUOTE
  else if e =? BACKSLASH then Some BACKSLASH
  else if e =? 47 then Some 47
  else if e =? 98 then Some 8
  else if e =? 102 then Some 12
  else if e =? 110 then Some 10
  else if e =? 114 then Some 13
  else if e =? 116 then Some 9
  else None.

(** The characters of a JSON string after its opening quote, up to and
    including the closing one; [None] is a [SyntaxError]. *)
Fixpoint parse_string_body (s : jsstring) : option (jsstring * jsstring) :=
  match s with
  | [] => None
  | c :: r =>
    if c =? QUOTE then Some ([], r)
    else if c =? BACKSLASH then
      match r with
      | [] => None
      | e :: r' =>
        if e =? 117 then
          match r' with
          | h1 :: h2 :: h3 :: h4 :: r'' =>
            match hex4 h1 h2 h3 h4 with
            | Some u =>
              match parse_string_body r'' with
              | Some (t, rest) => Some (u :: t, rest)
              | None => None
              end
            | None => None
            end
          | _ => None
          end
        else
          match simple_escape e with
          | Some u =>
            match parse_string_body r' with
            | Some (t, rest) => Some (u :: t, rest)
            | None => None
            end
          | None => None
          end
      end
    else if c <? 32 then None
    else
      match parse_string_body r with
      | Some (t, rest) => Some (c :: t, rest)
      | None => None
      end
  end.

Definition is_digit (c : N) : bool := (48 <=? c) && (c <=? 57).

Fixpoint take_digits (s : jsstring) : jsstring * jsstring :=
  match s with
  | c :: r =>
    if is_digit c then let '(ds, rest) := take_digits r in (c :: ds, rest)
    else ([], s)
  | [] => ([], [])
  end.

(** The integer part: a single [0], or a non-zero digit and more digits. *)
Definition parse_int_part (s : jsstring) : option (jsstring * jsstring) :=
  match s with
  | c :: r =>
    if c =? 48 then Some ([c], r)
    else if is_digit c then let '(ds, rest) := take_digits r in Some (c :: ds, rest)
    else None
  | [] => None
  end.

Definition parse_fraction (s : jsstring) : option (jsstring * jsstring) :=
  match s with
  | c :: r =>
    if c =? 46 then
      match take_digits r with
      | ([], _) => None
      | (ds, rest) => Some (c :: ds, rest)
      end
    else Some ([], s)
  | [] => Some ([], s)
  end.

Definition parse_exponent (s : jsstring) : option (jsstring * jsstring) :=
  match s with
  | c :: r =>
    if (c =? 101) || (c =? 69) then
      let '(sign, r') :=
        match r with
        | d :: r0 => if (d =? 43) || (d =? 45) then ([d], r0) else ([], r)
        | [] => ([], r)
        end in
      match take_digits r' with
      | ([], _) => None
      | (ds, rest) => Some (c :: sign ++ ds, rest)
      end
    else Some ([], s)
  | [] => Some ([], s)
  end.

Definition parse_number (s : jsstring) : option (jsstring * jsstring) :=
  let '(sign, s0) :=
    match s with
    | c :: r => if c =? 45 then ([c], r) else ([], s)
    | [] => ([], s)
    end in
  match parse_int_part s0 with
  | Some (i, s1) =>
    match parse_fraction s1 with
    | Some (f, s2) =>
      match parse_exponent s2 with
      | Some (e, s3) => Some (sign ++ i ++ f ++ e, s3)
      | None => None
      end
    | None => None
    end
  | None => None
  end.

(** [s] starts with the word [w]: what follows it. *)
Fixpoint strip_prefix (w s : jsstring) : option jsstring :=
  match w, s with
  | [], _ => Some s
  | a :: w', b :: s' => if a =? b then strip_prefix w' s' else None
  | _ :: _, [] => None
  end.

(** A JSON value at the head of [s] (white space before it allowed) and
    what follows it.  [fuel] bounds the recursion; as many units as the
    value has code units are enough ([fuel_adequate] below), so
    [JSON_parse] never fails for want of fuel. *)
Fixpoint parse_value (fuel : nat) (s : jsstring) : option (json * jsstring) :=
  match fuel with
  | O => None
  | S f =>
    match skip_ws s with
    | [] => None
    | c :: r =>
      if c =? 123 then
        match skip_ws r with
        | [] => None
        | c' :: r' =>
          if c' =? 125 then Some (JObj [], r')
          else
            match parse_members f (c' :: r') with
            | Some (ms, rest) => Some (JObj ms, rest)
            | None => None
            end
        end
      else if c =? 91 then
        match skip_ws r with
        | [] => None
        | c' :: r' =>
          if c' =? 93 then Some (JArr [], r')
          else
            match parse_elements f (c' :: r') with
            | Some (vs, rest) => Some (JArr vs, rest)
            | None => None
            end
        end
      else if c =? QUOTE then
        match parse_string_body r with
        | Some (t, rest) => Some (JStr t, rest)
        | None => None
        end
      else if c =? 116 then
        match strip_prefix [114; 117; 101] r with
        | Some rest => Some (JBool true, rest)
        | None => None
        end
      else if c =? 102 then
        match strip_prefix [97; 108; 115; 101] r with
        | Some rest => Some (JBool false, rest)
        | None => None
        end
      else if c =? 110 then
        match strip_prefix [117; 108; 108] r with
        | Some rest => Some (JNull, rest)
        | None => None
        end
      else
        match parse_number (c :: r) with
        | Some (n, rest) => Some (JNum n, rest)
        | None => None
        end
    end
  end

(** The members of an object after its opening brace, from the first key
    (white space before it already skipped) through the closing brace. *)
with parse_members (fuel : nat) (s : jsstring)
  : option (list (jsstring * json) * jsstring) :=
  match fuel with
  | O => None
  | S f =>
    match s with
    | [] => None
    | q :: r =>
      if q =? QUOTE then
        match parse_string_body r with
        | Some (k, r1) =>
          match skip_ws r1 with
          | [] => None
          | c :: r2 =>
            if c =? 58 then
              match parse_value f r2 with
              | Some (v, r3) =>
                match skip_ws r3 with
                | [] => None
                | d :: r4 =>
                  if d =? 44 then
                    match parse_members f (skip_ws r4) with
                    | Some (ms, rest) => Some ((k, v) :: ms, rest)
                    | None => None
                    end
                  else if d =? 125 then Some ([(k, v)], r4)
                  else None
                end
              | None => None
              end
            else None
          end
        | None => None
        end
      else None
    end
  end

(** The elements of an array after its opening bracket, through the
    closing one. *)
with parse_elements (fuel : nat) (s : jsstring) : option (list json * jsstring) :=
  match fuel with
  | O => None
  | S f =>
    match parse_value f s with
    | Some (v, r1) =>
      match skip_ws r1 with
      | [] => None
      | d :: r2 =>
        if d =? 44 then
          match parse_elements f r2 with
          | Some (vs, rest) => Some (v :: vs, rest)
          | None => None
          end
        else if d =? 93 then Some ([v], r2)
        else None
      end
    | None => None
    end
  end.

(** [JSON.parse(text)]: one value, white space around it, nothing else.
    [None] stands for the [SyntaxError] the built-in throws. *)
Definition JSON_parse (text : jsstring) : option json :=
  match parse_value (S (length text)) text with
  | Some (v, rest) =>
    match skip_ws rest with
    | [] => Some v
    | _ => None
    end
  | None => None
  end.

(** *** Reading a parsed value

    [v[k]] for a key [k] that no built-in prototype defines ([industry]
    and [category] are such keys): the last member of that name of an
    object ([JSON.parse] lets a later duplicate overwrite an earlier one),
    [undefined] ([None]) on any other value, and a [TypeError] on [null]. *)

Fixpoint last_member (ms : list (jsstring * json)) (k : jsstring) : option json :=
  match ms with
  | [] => None
  | (k', v) :: r =>
    match last_member r k with
    | Some w => Some w
    | None => if decide (k' = k) then Some v else None
    end
  end.

(** What a JavaScript operation can throw here, and what it gives. *)
Inductive error : Type :=
  | TypeError
  | SyntaxError
  | RangeError
  | Rejected (reason : jsstring).

Inductive result (A : Type) : Type :=
  | Ok (a : A)
  | Throw (e : error).
Arguments Ok {A} a.
Arguments Throw {A} e.

(** Two texts joined by a comma; [None] when either is not known. *)
Definition comma (a b : option jsstring) : option jsstring :=
  match a, b with
  | Some a', Some b' => Some (a' ++ [44] ++ b')
  | _, _ => None
  end.

(** ToString of a parsed value, as ToPropertyKey applies it.

    An object is printed by the [toString] it inherits, unless it has a
    member of that name: a member read from JSON is never callable, and
    then neither it nor [valueOf] yields a primitive, so the conversion
    throws a [TypeError].  An array is printed by [join], element by
    element from the left ([null] as the empty text), so the first
    element that throws ends the conversion.

    [Ok None] marks a text that contains the print of a number: such a
    text holds a digit or the word [Infinity], so it names no property of
    the fixed tables nor of [Object.prototype]. *)
Fixpoint json_to_string (v : json) : result (option jsstring) :=
  match v with
  | JNull => Ok (Some (lit "null"))
  | JBool true => Ok (Some (lit "true"))
  | JBool false => Ok (Some (lit "false"))
  | JNum _ => Ok None
  | JStr s => Ok (Some s)
  | JObj ms =>
    match last_member ms (lit "toString") with
    | Some _ => Throw TypeError
    | None => Ok (Some (lit "[object Object]"))
    end
  | JArr vs =>
    (fix join (l : list json) : result (option jsstring) :=
       match l with
       | [] => Ok (Some [])
       | x :: r =>
         match (match x with JNull => Ok (Some []) | _ => json_to_string x end) with
         | Throw e => Throw e
         | Ok a =>
           match r with
           | [] => Ok a
           | _ :: _ =>
             match join r with
             | Throw e => Throw e
             | Ok b => Ok (comma a b)
             end
           end
         end
       end) vs
  end.

(** ** Handlers as computations

    A handler reads and writes the session store, calls the outside world
    and may throw. *)

(** *** Block Kit structures, field by field as the source builds them *)

Record text_object := {
  text_type : jsstring;
  text : jsstring;
  emoji : option bool
}.

Record option_object := {
  option_text : text_object;
  option_value : jsstring
}.

Inductive element : Type :=
  | EStaticSelect (placeholder : text_object) (action_id : jsstring)
                  (options : list option_object)
  | EButton (label : text_object) (value : jsstring) (action_id : jsstring)
  | EPlainTextInput (action_id : jsstring) (multiline : bool)
                    (placeholder : text_object).

Inductive block : Type :=
  | BHeader (t : text_object)
  | BSection (t : text_object)
  | BActions (elements : list element)
  | BInput (block_id : jsstring) (e : element) (label : text_object).

Record view := {
  view_type : jsstring;
  callback_id : option jsstring;
  title : option text_object;
  submit : option text_object;
  close : option text_object;
  blocks : list block;
  private_metadata : option jsstring
}.

Record message := {
  channel : jsstring;
  message_text : val;
  message_blocks : list block
}.

Record response := {
  response_blocks : list block;
  response_type : jsstring
}.

(** *** The completion API *)

Record chat_message := {
  role : jsstring;
  content : jsstring
}.

Record request := {
  model : jsstring;
  messages : list chat_message;
  temperature : jsstring  (* the literal of the source, 0.7 *)
}.

(** A completion: [choices[i].message.content] is a string or [null]. *)
Record choice := { message_content : option jsstring }.
Record chat_completion := { choices : list choice }.

(** *** Calls that leave the process *)

Inductive effect : Type :=
  | Ack
  | ViewsPublish (user_id : jsstring) (v : view)
  | ViewsOpen (trigger_id : jsstring) (v : view)
  | ChatPostMessage (m : message)
  | Respond (r : response)
  | ChatCompletionsCreate (req : request)
  | ConsoleError (label : jsstring) (e : error).

(** The two places where the submit handler reads a table by a parsed
    value: the arguments of the completion client, and the heading of the
    answer. *)
Inductive read_site : Type :=
  | ArgumentRead
  | HeadingRead.

(** How the outside world answers during one handler run: [None] is a
    promise that resolves, [Some e] one that rejects with [e].
    [stack_exhausted] says of a parsed array whether printing it at that
    place runs out of call stack in this run: [join] recurses into nested
    arrays, and the depth at which the stack ends is the runtime's. *)
Record world := {
  stack_exhausted : read_site -> json -> bool;
  ack_outcome : option error;
  views_publish_outcome : option error;
  views_open_outcome : option error;
  chat_postMessage_outcome : option error;
  respond_outcome : option error;
  completions_create_outcome : result chat_completion
}.

(** [userContexts]: a [Map] from user id to an object, whose properties
    hold the strings the platform sent. *)
Abbreviation session := (gmap jsstring jsstring).
Abbreviation store := (gmap jsstring (gmap jsstring jsstring)).

Definition M (A : Type) : Type := store -> result A * store * list effect.

Definition ret {A} (a : A) : M A := fun st => (Ok a, st, []).

Definition bind {A B} (m : M A) (k : A -> M B) : M B :=
  fun st =>
    match m st with
    | (Ok a, st1, t1) => let '(r, st2, t2) := k a st1 in (r, st2, t1 ++ t2)
    | (Throw e, st1, t1) => (Throw e, st1, t1)
    end.

Definition throw {A} (e : error) : M A := fun st => (Throw e, st, []).

Definition emit (ev : effect) : M unit := fun st => (Ok tt, st, [ev]).

(** [try { m } catch (error) { h error }]. *)
Definition try_catch {A} (m : M A) (h : error -> M A) : M A :=
  fun st =>
    match m st with
    | (Ok a, st1, t1) => (Ok a, st1, t1)
    | (Throw e, st1, t1) => let '(r, st2, t2) := h e st1 in (r, st2, t1 ++ t2)
    end.

Definition read_store : M store := fun st => (Ok st, st, []).
Definition write_store (st' : store) : M unit := fun _ => (Ok tt, st', []).

Notation "x <- c1 ;; c2" := (bind c1 (fun x => c2))
  (at level 100, c1 at next level, right associativity).
Notation "c1 ;; c2" := (bind c1 (fun _ => c2))
  (at level 100, right associativity).

(** [await call], a call that resolves to nothing. *)
Definition await (ev : effect) (outcome : option error) : M unit :=
  emit ev ;;
  match outcome with
  | None => ret tt
  | Some e => throw e
  end.

Definition console_error (label : jsstring) (e : error) : M unit :=
  emit (ConsoleError label e).

Definition store_of {A} (r : result A * store * list effect) : store := snd (fst r).
Definition trace_of {A} (r : result A * store * list effect) : list effect := snd r.
Definition result_of {A} (r : result A * store * list effect) : result A := fst (fst r).

(** ** Start-up validation (src/app.js, lines 6-19) *)

Definition requiredEnvVars : list jsstring :=
  [ lit "SLACK_BOT_TOKEN";
    lit "SLACK_SIGNING_SECRET";
    lit "SLACK_APP_TOKEN";
    lit "OPENAI_API_KEY" ].

(** [process.env[name]]: a string when the variable is in the
    environment, [undefined] otherwise. *)
Definition env_get (env : gmap jsstring jsstring) (name : jsstring) : val :=
  match env !! name with
  | Some s => VStr s
  | None => VUndef
  end.

Definition missingEnvVars (env : gmap jsstring jsstring) : list jsstring :=
  List.filter (fun envVar => negb (truthy (env_get env envVar))) requiredEnvVars.

(** What the top of the module does: either the process exits with a
    status after writing lines to the error stream, or loading goes on to
    build the application. *)
Inductive startup : Type :=
  | Exit (status : N) (stderr : list jsstring)
  | Continue.

Definition validate_environment (env : gmap jsstring jsstring) : startup :=
  if (0 <? length (missingEnvVars env))%nat then
    Exit 1 (lit "Error: Missing required environment variables:"
            :: map (fun envVar => lit "- " ++ envVar) (missingEnvVars env))
  else Continue.

(** ** The completion client (lines 69-89) *)

Definition fallback : jsstring :=
  lit "申し訳ありません。現在AIの応答に問題が発生しています。".

(** A parameter declared [p = null] is [null] when the argument is
    [undefined]. *)
Definition default_null (v : val) : val :=
  match v with
  | VUndef => VNull
  | _ => v
  end.

Definition system_content (industry category : val) : jsstring :=
  lit "あなたは" ++ to_string (js_or industry (VStr [])) ++ lit "向けの"
  ++ to_string (js_or category (VStr [])) ++ lit "専門アシスタントです。"
  ++ [LF] ++ lit "                   専門的かつ実用的なアドバイスを提供してください。".

Definition completion_request (prompt : jsstring) (industry category : val) : request :=
  {| model := lit "gpt-4";
     messages :=
       [ {| role := lit "system"; content := system_content industry category |};
         {| role := lit "user"; content := prompt |} ];
     temperature := lit "0.7" |}.

(** [await openai.chat.completions.create(req)]. *)
Definition completions_create (w : world) (req : request) : M chat_completion :=
  emit (ChatCompletionsCreate req) ;;
  match completions_create_outcome w with
  | Ok r => ret r
  | Throw e => throw e
  end.

(** [response.choices[0].message.content]: reading [message] of a missing
    first choice throws. *)
Definition first_content (r : chat_completion) : M val :=
  match choices r with
  | [] => throw TypeError
  | c :: _ =>
    ret (match message_content c with
         | Some s => VStr s
         | None => VNull
         end)
  end.

Definition generateAIResponse (w : world) (prompt : jsstring) (industry category : val)
  : M val :=
  let industry := default_null industry in
  let category := default_null category in
  try_catch
    (response <- completions_create w (completion_request prompt industry category) ;;
     first_content response)
    (fun error =>
       console_error (lit "OpenAI API Error:") error ;;
       ret (VStr fallback)).

(** ** The home tab (lines 92-171) *)

Definition plain_text (t : jsstring) : text_object :=
  {| text_type := lit "plain_text"; text := t; emoji := Some true |}.

Definition mrkdwn (t : jsstring) : text_object :=
  {| text_type := lit "mrkdwn"; text := t; emoji := None |}.

Definition industry_options : list option_object :=
  map (fun '(value, text) => {| option_text := plain_text text; option_value := value |})
      (Object_entries INDUSTRIES).

Definition industry_select (action_id : jsstring) : element :=
  EStaticSelect (plain_text (lit "業種を選択")) action_id industry_options.

Definition category_buttons : list element :=
  map (fun '(value, text) => EButton (plain_text text) value (lit "category_" ++ value))
      (Object_entries CATEGORIES).

(** [userContext.industry] of a session object. *)
Definition industry_of (userContext : gmap jsstring jsstring) : val :=
  match userContext !! lit "industry" with
  | Some s => VStr s
  | None => VUndef
  end.

(** The key of [INDUSTRIES[userContext.industry]] is the property value
    converted to a string. *)
Definition selected_label (industry : val) : text_object :=
  mrkdwn (lit "*選択された業種: " ++ to_string (get INDUSTRIES (to_string industry)) ++ lit "*"
          ++ [LF] ++ lit "以下のカテゴリから選択してください：").

Definition home_blocks (userContext : gmap jsstring jsstring) : list block :=
  let blocks :=
    [ BHeader (plain_text (lit "Softdoing AI ボード 🤖"));
      BSection (mrkdwn (lit "業務効率化のためのAIアシスタントへようこそ！" ++ [LF]
                        ++ lit "業種を選択して始めましょう。"));
      BActions [industry_select (lit "select_industry")] ] in
  if truthy (industry_of userContext)
  then blocks ++ [ BSection (selected_label (industry_of userContext));
                   BActions category_buttons ]
  else blocks.

Definition home_view (bs : list block) : view :=
  {| view_type := lit "home"; callback_id := None; title := None; submit := None;
     close := None; blocks := bs; private_metadata := None |}.

Definition updateHomeTab (w : world) (userId : jsstring) : M unit :=
  try_catch
    (userContexts <- read_store ;;
     let userContext := default ∅ (userContexts !! userId) in
     await (ViewsPublish userId (home_view (home_blocks userContext)))
           (views_publish_outcome w))
    (fun error => console_error (lit "Error updating home tab:") error).

(** ** The listeners (lines 174-335) *)

(** What a handler reads of an action payload: [body.user.id],
    [body.actions[0].selected_option.value] and [body.trigger_id]. *)
Record action_body := {
  action_user : jsstring;
  selected_value : jsstring;
  trigger_id : jsstring
}.

(** What the submit handler reads: [body.user.id], [view.private_metadata]
    and [view.state.values.query_block.query_input.value] (the input block
    is not optional, so the platform submits a string). *)
Record view_submission := {
  submit_user : jsstring;
  submitted_metadata : jsstring;
  query_value : jsstring
}.

Definition select_industry (w : world) (body : action_body) : M unit :=
  try_catch
    (await Ack (ack_outcome w) ;;
     let userId := action_user body in
     let selectedIndustry := selected_value body in
     userContexts <- read_store ;;
     write_store (<[userId := <[lit "industry" := selectedIndustry]>
                                (default ∅ (userContexts !! userId))]> userContexts) ;;
     updateHomeTab w userId)
    (fun error => console_error (lit "Error handling industry selection:") error).

Definition query_modal (category : jsstring) (industry : jsstring) : view :=
  {| view_type := lit "modal";
     callback_id := Some (lit "modal_submit");
     title := Some (plain_text (to_string (get CATEGORIES category) ++ lit "サポート"));
     submit := Some (plain_text (lit "送信"));
     close := Some (plain_text (lit "キャンセル"));
     blocks :=
       [ BInput (lit "query_block")
           (EPlainTextInput (lit "query_input") true
              {| text_type := lit "plain_text";
                 text := lit "ご質問や依頼内容を入力してください";
                 emoji := None |})
           (plain_text (lit "質問内容")) ];
     private_metadata :=
       Some (JSON_stringify [ (lit "industry", industry); (lit "category", category) ]) |}.

(** The handler registered for [category_${category}]. *)
Definition category_action (category : jsstring) (w : world) (body : action_body) : M unit :=
  try_catch
    (await Ack (ack_outcome w) ;;
     userContexts <- read_store ;;
     match userContexts !! action_user body with
     | None => ret tt
     | Some userContext =>
       match userContext !! lit "industry" with
       | None => ret tt
       | Some industry =>
         if negb (truthy (VStr industry)) then ret tt
         else await (ViewsOpen (trigger_id body) (query_modal category industry))
                    (views_open_outcome w)
       end
     end)
    (fun error => console_error (lit "Error opening modal:") error).

(** [t[v]] where [v] was destructured out of a parsed value ([None] is
    [undefined]): the value is first turned into a property key, which
    can throw. *)
Definition get_by (w : world) (site : read_site) (t : table) (v : option json)
  : result val :=
  match v with
  | None => Ok (get t (lit "undefined"))
  | Some j =>
    if match j with
       | JArr _ => stack_exhausted w site j
       | _ => false
       end
    then Throw RangeError
    else
      match json_to_string j with
      | Throw e => Throw e
      | Ok (Some k) => Ok (get t k)
      | Ok None => Ok VUndef
      end
  end.

(** A result as a step of a handler. *)
Definition lift {A} (r : result A) : M A :=
  match r with
  | Ok a => ret a
  | Throw e => throw e
  end.

(** [const { industry, category } = JSON.parse(view.private_metadata)]. *)
Definition parse_metadata (metadata : jsstring) : M (option json * option json) :=
  match JSON_parse metadata with
  | None => throw SyntaxError
  | Some JNull => throw TypeError
  | Some (JObj ms) => ret (last_member ms (lit "industry"), last_member ms (lit "category"))
  | Some _ => ret (None, None)
  end.

Definition answer_blocks (industry category response : val) : list block :=
  [ BSection (mrkdwn (lit "*" ++ to_string industry ++ lit " - " ++ to_string category
                      ++ lit "に関する回答*" ++ [LF; LF] ++ to_string response)) ].

Definition modal_submit (w : world) (ev : view_submission) : M unit :=
  try_catch
    (await Ack (ack_outcome w) ;;
     parsed <- parse_metadata (submitted_metadata ev) ;;
     let '(industry, category) := parsed in
     let query := query_value ev in
     let userId := submit_user ev in
     industryLabel <- lift (get_by w ArgumentRead INDUSTRIES industry) ;;
     categoryLabel <- lift (get_by w ArgumentRead CATEGORIES category) ;;
     response <- generateAIResponse w query industryLabel categoryLabel ;;
     industryHeading <- lift (get_by w HeadingRead INDUSTRIES industry) ;;
     categoryHeading <- lift (get_by w HeadingRead CATEGORIES category) ;;
     await (ChatPostMessage
              {| channel := userId;
                 message_text := response;
                 message_blocks := answer_blocks industryHeading categoryHeading response |})
           (chat_postMessage_outcome w))
    (fun error => console_error (lit "Error handling modal submission:") error).

Definition command_blocks : list block :=
  [ BSection (mrkdwn (lit "AIボードを起動しました。以下から業種を選択してください："));
    BActions [industry_select (lit "command_select_industry")] ].

Definition ai_board_command (w : world) : M unit :=
  try_catch
    (await Ack (ack_outcome w) ;;
     await (Respond {| response_blocks := command_blocks;
                       response_type := lit "ephemeral" |})
           (respond_outcome w))
    (fun error => console_error (lit "Error handling slash command:") error).

Definition app_home_opened (w : world) (user : jsstring) : M unit :=
  try_catch
    (updateHomeTab w user)
    (fun error => console_error (lit "Error handling app_home_opened event:") error).

(** ** The router

    [app.action], [app.view], [app.command] and [app.event] add a listener
    under a constraint; the constraints of this program are all strings,
    which Bolt compares for equality with the identifier of the incoming
    payload.  A payload no listener matches runs no handler. *)

Inductive listener : Type :=
  | OnAction (action_id : jsstring) (h : world -> action_body -> M unit)
  | OnView (callback_id : jsstring) (h : world -> view_submission -> M unit)
  | OnCommand (name : jsstring) (h : world -> M unit)
  | OnEvent (type : jsstring) (h : world -> jsstring -> M unit).

Definition listeners : list listener :=
  [ OnAction (lit "select_industry") select_industry ]
  ++ map (fun category => OnAction (lit "category_" ++ category) (category_action category))
         (Object_keys CATEGORIES)
  ++ [ OnView (lit "modal_submit") modal_submit;
       OnCommand (lit "/ai-board") ai_board_command;
       OnEvent (lit "app_home_opened") app_home_opened ].

Inductive payload : Type :=
  | Action (action_id : jsstring) (body : action_body)
  | ViewSubmission (callback_id : jsstring) (ev : view_submission)
  | Command (name : jsstring)
  | Event (type : jsstring) (user : jsstring).

(** The handler a listener runs for a payload, if its constraint matches. *)
Definition matching (w : world) (p : payload) (l : listener) : option (M unit) :=
  match l, p with
  | OnAction id h, Action id' body => if decide (id = id') then Some (h w body) else None
  | OnView id h, ViewSubmission id' ev => if decide (id = id') then Some (h w ev) else None
  | OnCommand n h, Command n' => if decide (n = n') then Some (h w) else None
  | OnEvent t h, Event t' user => if decide (t = t') then Some (h w user) else None
  | _, _ => None
  end.

Fixpoint run_all (hs : list (M unit)) : M unit :=
  match hs with
  | [] => ret tt
  | h :: r => h ;; run_all r
  end.

Definition dispatch (w : world) (p : payload) : M unit :=
  run_all (omap (matching w p) listeners).

Definition action_ids (ls : list listener) : list jsstring :=
  omap (fun l => match l with OnAction id _ => Some id | _ => None end) ls.

(** ** Observations

    What a trace shows of each kind of call, and what a layout shows of
    each kind of control. *)

Definition published (t : list effect) : list (jsstring * view) :=
  omap (fun ev => match ev with ViewsPublish u v => Some (u, v) | _ => None end) t.

Definition opened (t : list effect) : list (jsstring * view) :=
  omap (fun ev => match ev with ViewsOpen tr v => Some (tr, v) | _ => None end) t.

Definition posted (t : list effect) : list message :=
  omap (fun ev => match ev with ChatPostMessage m => Some m | _ => None end) t.

Definition responded (t : list effect) : list response :=
  omap (fun ev => match ev with Respond r => Some r | _ => None end) t.

Definition requested (t : list effect) : list request :=
  omap (fun ev => match ev with ChatCompletionsCreate r => Some r | _ => None end) t.

Definition logged (t : list effect) : list (jsstring * error) :=
  omap (fun ev => match ev with ConsoleError l e => Some (l, e) | _ => None end) t.

Definition elements_of (b : block) : list element :=
  match b with
  | BActions es => es
  | BInput _ e _ => [e]
  | _ => []
  end.

(** The options of every select menu of a layout, as (value, label). *)
Definition select_options (bs : list block) : list (jsstring * jsstring) :=
  flat_map
    (fun e => match e with
              | EStaticSelect _ _ os =>
                map (fun o => (option_value o, text (option_text o))) os
              | _ => []
              end)
    (flat_map elements_of bs).

(** The action identifiers of the select menus of a layout. *)
Definition select_action_ids (bs : list block) : list jsstring :=
  omap (fun e => match e with EStaticSelect _ id _ => Some id | _ => None end)
       (flat_map elements_of bs).

(** The buttons of a layout, as (value, label, action identifier). *)
Definition buttons (bs : list block) : list (jsstring * jsstring * jsstring) :=
  omap (fun e => match e with
                 | EButton l v id => Some (v, text l, id)
                 | _ => None
                 end)
       (flat_map elements_of bs).

Definition section_texts (bs : list block) : list jsstring :=
  omap (fun b => match b with BSection t => Some (text t) | _ => None end) bs.



(** The session of [user] has no industry the handlers would accept:
    there is no session, or its [industry] is absent or empty. *)
Definition industry_unset (st : gmap jsstring (gmap jsstring jsstring)) (user : jsstring) : Prop :=
  forall userContext, st !! user = Some userContext ->
                      truthy (industry_of userContext) = false.

(** A configuration value is there when the variable is set to a
    non-empty string. *)
Definition configured (env : gmap jsstring jsstring) (name : jsstring) : Prop :=
  exists s, env !! name = Some s /\ s <> [].

(** The try block of the completion client throws [e]: the call is
    rejected, or it resolves to a completion without a first choice. *)
Definition completion_fails (w : world) (e : error) : Prop :=
  completions_create_outcome w = Throw e
  \/ (exists r, completions_create_outcome w = Ok r /\ choices r = [] /\ e = TypeError).

(** The parse of a value with fuel [f] consumed something, and any fuel
    that is at least [f], or at least the number of code units consumed,
    gives the same parse. *)
Definition value_adequate (f : nat) : Prop :=
  forall s v rest, parse_value f s = Some (v, rest) ->
    (length rest < length s)%nat
    /\ forall g, (f <= g \/ length s - length rest <= g)%nat ->
                 parse_value g s = Some (v, rest).

Definition members_adequate (f : nat) : Prop :=
  forall s ms rest, parse_members f s = Some (ms, rest) ->
    (length rest < length s)%nat
    /\ forall g, (f <= g \/ length s - length rest <= g)%nat ->
                 parse_members g s = Some (ms, rest).

Definition elements_adequate (f : nat) : Prop :=
  forall s vs rest, parse_elements f s = Some (vs, rest) ->
    (length rest < length s)%nat
    /\ forall g, (f <= g \/ length s - length rest <= g)%nat ->
                 parse_elements g s = Some (vs, rest).

(** Reading one more code unit in front of a string body. *)
Definition cons_body (c : N) (p : option (jsstring * jsstring))
  : option (jsstring * jsstring) :=
  match p with
  | Some (t, rest) => Some (c :: t, rest)
  | None => None
  end.

Definition well_formedb (s : jsstring) : bool := forallb (fun c => c <? 65536) s.

(** ** Sample data for the worked examples *)

(** A JSON text written with apostrophes where the quotes go. *)
Definition with_quotes (s : jsstring) : jsstring :=
  map (fun c => if c =? 39 then QUOTE else c) s.

Definition sample_completion : chat_completion :=
  {| choices := [ {| message_content := Some (lit "まず仕訳を確認してください。") |} ] |}.

(** Every call resolves. *)
Definition calm : world :=
  {| stack_exhausted := fun _ _ => false;
     ack_outcome := None;
     views_publish_outcome := None;
     views_open_outcome := None;
     chat_postMessage_outcome := None;
     respond_outcome := None;
     completions_create_outcome := Ok sample_completion |}.

(** The completion API rejects the call. *)
Definition quota_exceeded : world :=
  {| stack_exhausted := fun _ _ => false;
     ack_outcome := None;
     views_publish_outcome := None;
     views_open_outcome := None;
     chat_postMessage_outcome := None;
     respond_outcome := None;
     completions_create_outcome := Throw (Rejected (lit "429 quota exceeded")) |}.

Definition sample_body : action_body :=
  {| action_user := lit "U024BE7LH";
     selected_value := lit "medical";
     trigger_id := lit "12345.98765.abcd2358fdea" |}.

Definition sample_submission : view_submission :=
  {| submit_user := lit "U024BE7LH";
     submitted_metadata :=
       JSON_stringify [ (lit "industry", lit "retail"); (lit "category", lit "hr") ];
     query_value := lit "有給休暇の管理方法を教えてください" |}.

(** A session whose industry is the empty string, one with an industry,
    and one that also carries a category. *)
Definition blank_sessions : gmap jsstring (gmap jsstring jsstring) :=
  {[ lit "U024BE7LH" := {[ lit "industry" := [] ]} ]}.

Definition retail_sessions : gmap jsstring (gmap jsstring jsstring) :=
  {[ lit "U024BE7LH" := {[ lit "industry" := lit "retail" ]} ]}.

Definition retail_hr_session : gmap jsstring jsstring :=
  <[ lit "category" := lit "hr" ]> {[ lit "industry" := lit "retail" ]}.

Definition retail_hr_sessions : gmap jsstring (gmap jsstring jsstring) :=
  {[ lit "U024BE7LH" := retail_hr_session ]}.

(** An environment with one variable unset and one set to nothing. *)
Definition partial_env : gmap jsstring jsstring :=
  <[ lit "SLACK_BOT_TOKEN" := lit "xoxb-1" ]>
    (<[ lit "SLACK_SIGNING_SECRET" := [] ]>
       {[ lit "SLACK_APP_TOKEN" := lit "xapp-1" ]}).

(** ** Predicates and sample data of the further properties *)

(** A handler run that leaves the session store as it found it. *)
Definition preserves (h : M unit) : Prop := forall st, store_of (h st) = st.

(** A trace that holds nothing but acknowledgements and log entries of
    the error [e]. *)
Definition only_logs (e : error) (t : list effect) : Prop :=
  Forall (fun ev => ev = Ack \/ exists label, ev = ConsoleError label e) t.

(** Payloads the platform expects an acknowledgement for: all but the
    Events API notifications, whose handlers receive no [ack]. *)
Definition acknowledged (p : payload) : Prop :=
  match p with
  | Event _ _ => False
  | _ => True
  end.

Definition view_ids (ls : list listener) : list jsstring :=
  omap (fun l => match l with OnView id _ => Some id | _ => None end) ls.

(** A listener that writes no session unless it is handed the selection
    of an industry. *)
Definition writes_on_selection_only (l : listener) : Prop :=
  forall w p h,
    (forall body, p <> Action (lit "select_industry") body) ->
    matching w p l = Some h -> preserves h.

(** A handler whose first call is the acknowledgement. *)
Definition acks_at_once (h : M unit) : Prop :=
  forall st, exists t, trace_of (h st) = Ack :: t.

Definition acks_when_due (l : listener) : Prop :=
  forall w p h, acknowledged p -> matching w p l = Some h -> acks_at_once h.

(** A handler run that changes no session and calls nothing but [ack]
    and the log of [e]. *)
Definition stops_on (e : error) (h : M unit) : Prop :=
  forall st, store_of (h st) = st /\ only_logs e (trace_of (h st)).

Definition stops_when_ack_fails (l : listener) : Prop :=
  forall w p h e, ack_outcome w = Some e -> acknowledged p ->
                  matching w p l = Some h -> stops_on e h.

(** The acknowledgement is rejected. *)
Definition ack_rejected : world :=
  {| stack_exhausted := fun _ _ => false;
     ack_outcome := Some (Rejected (lit "socket closed"));
     views_publish_outcome := None;
     views_open_outcome := None;
     chat_postMessage_outcome := None;
     respond_outcome := None;
     completions_create_outcome := Ok sample_completion |}.

(** The platform refuses the home view. *)
Definition publish_rejected : world :=
  {| stack_exhausted := fun _ _ => false;
     ack_outcome := None;
     views_publish_outcome := Some (Rejected (lit "invalid_blocks"));
     views_open_outcome := None;
     chat_postMessage_outcome := None;
     respond_outcome := None;
     completions_create_outcome := Ok sample_completion |}.

(** The completion has a first choice without text. *)
Definition content_missing : world :=
  {| stack_exhausted := fun _ _ => false;
     ack_outcome := None;
     views_publish_outcome := None;
     views_open_outcome := None;
     chat_postMessage_outcome := None;
     respond_outcome := None;
     completions_create_outcome := Ok {| choices := [ {| message_content := None |} ] |} |}.

Definition retail_pick : action_body :=
  {| action_user := lit "U024BE7LH";
     selected_value := lit "retail";
     trigger_id := lit "12345.98765.abcd2358fdeb" |}.

Definition banking_pick : action_body :=
  {| action_user := lit "U024BE7LH";
     selected_value := lit "banking";
     trigger_id := lit "12345.98765.abcd2358fdec" |}.

Definition truncated_submission : view_submission :=
  {| submit_user := lit "U024BE7LH";
     submitted_metadata := lit "{industry";
     query_value := lit "?" |}.

Definition empty_object_submission : view_submission :=
  {| submit_user := lit "U024BE7LH";
     submitted_metadata := lit "{}";
     query_value := lit "?" |}.

Definition medical_hr_submission : view_submission :=
  {| submit_user := lit "U024BE7LH";
     submitted_metadata :=
       JSON_stringify [ (lit "industry", lit "medical"); (lit "category", lit "hr") ];
     query_value := lit "シフト表の作り方を教えてください" |}.

(** A handler run that neither calls the completion API nor posts a
    message. *)
Definition asks_nothing (h : M unit) : Prop :=
  forall st, requested (trace_of (h st)) = [] /\ posted (trace_of (h st)) = [].

Definition asks_on_submission_only (l : listener) : Prop :=
  forall w p h,
    (forall ev, p <> ViewSubmission (lit "modal_submit") ev) ->
    matching w p l = Some h -> asks_nothing h.

(** * Properties *)

(** Two literals differ. *)
Ltac lit_neq := let E := fresh in intros E; vm_compute in E; discriminate E.

(** A literal is one of the members of a list of literals. *)
Ltac in_list :=
  apply list_elem_of_In; vm_compute; repeat (first [left; reflexivity | right]).

(** Unfold the plumbing of a handler. *)
Ltac run :=
  unfold try_catch, bind, await, emit, ret, throw, read_store, write_store, console_error,
         store_of, trace_of, result_of.

(** ** JSON: parsing what was serialised *)

Lemma well_formedb_spec (s : jsstring) : well_formedb s = true -> well_formed s.
Proof.
  unfold well_formedb, well_formed. intros H.
  apply Forall_forall. intros c Hc. apply list_elem_of_In in Hc.
  rewrite forallb_forall in H. apply N.ltb_lt. apply H. exact Hc.
Qed.

Lemma hex_value_digit (d : N) : d < 16 -> hex_value (hex_digit d) = Some d.
Proof.
  intros Hd. unfold hex_value, hex_digit.
  destruct (N.ltb_spec d 10) as [Hlt | Hge].
  - rewrite (proj2 (N.leb_le 48 (48 + d))) by lia.
    rewrite (proj2 (N.leb_le (48 + d) 57)) by lia.
    simpl. f_equal. lia.
  - rewrite (proj2 (N.leb_gt (87 + d) 57)) by lia.
    rewrite andb_false_r.
    rewrite (proj2 (N.leb_le 97 (87 + d))) by lia.
    rewrite (proj2 (N.leb_le (87 + d) 102)) by lia.
    simpl. f_equal. lia.
Qed.

Lemma hex4_escape (c : N) :
  code_unit c ->
  hex4 (hex_digit (c / 4096)) (hex_digit ((c / 256) mod 16))
       (hex_digit ((c / 16) mod 16)) (hex_digit (c mod 16)) = Some c.
Proof.
  unfold code_unit. intros Hc. unfold hex4.
  rewrite !hex_value_digit; try (apply N.mod_lt; lia).
  - f_equal. zify. Z.to_euclidean_division_equations. lia.
  - apply N.Div0.div_lt_upper_bound. lia.
Qed.

Lemma parse_raw (c : N) (tail : jsstring) :
  c <> QUOTE -> c <> BACKSLASH -> 32 <= c ->
  parse_string_body (c :: tail) = cons_body c (parse_string_body tail).
Proof.
  intros Hq Hb Hc. cbn [parse_string_body].
  rewrite (proj2 (N.eqb_neq c QUOTE)) by assumption.
  rewrite (proj2 (N.eqb_neq c BACKSLASH)) by assumption.
  rewrite (proj2 (N.ltb_ge c 32)) by assumption.
  reflexivity.
Qed.

Lemma parse_unicode_escape (c : N) (tail : jsstring) :
  code_unit c ->
  parse_string_body (unicode_escape c ++ tail) = cons_body c (parse_string_body tail).
Proof.
  intros Hc. unfold unicode_escape.
  cbn [app parse_string_body].
  change (BACKSLASH =? QUOTE) with false.
  change (BACKSLASH =? BACKSLASH) with true.
  change (117 =? 117) with true. cbv iota.
  rewrite hex4_escape by assumption. reflexivity.
Qed.

(** An escaped code unit reads back as itself. *)
Lemma parse_quote_unit (c : N) (tail : jsstring) :
  code_unit c ->
  parse_string_body (quote_unit c ++ tail) = cons_body c (parse_string_body tail).
Proof.
  intros Hc. unfold quote_unit.
  repeat match goal with
         | |- context [?a =? ?b] =>
           destruct (N.eqb_spec a b) as [-> | ?]; [reflexivity |]
         end.
  destruct ((c <? 32) || is_high_surrogate c || is_low_surrogate c) eqn:E.
  - apply parse_unicode_escape. assumption.
  - apply orb_false_elim in E as [E _]. apply orb_false_elim in E as [E _].
    apply N.ltb_ge in E. apply parse_raw; assumption.
Qed.

Lemma surrogate_raw (c : N) :
  is_high_surrogate c || is_low_surrogate c = true ->
  c <> QUOTE /\ c <> BACKSLASH /\ 32 <= c.
Proof.
  unfold is_high_surrogate, is_low_surrogate, QUOTE, BACKSLASH. intros H.
  apply orb_true_iff in H as [H | H]; apply andb_true_iff in H as [H _];
    apply N.leb_le in H; lia.
Qed.

(** [quote_body] steps over a surrogate pair, so the induction is on a
    bound of the length. *)
Lemma parse_quote_body_aux (n : nat) :
  forall s rest, (length s <= n)%nat -> well_formed s ->
    parse_string_body (quote_body s ++ QUOTE :: rest) = Some (s, rest).
Proof.
  induction n as [| n IH]; intros s rest Hlen Hwf.
  - destruct s; [reflexivity | simpl in Hlen; lia].
  - destruct s as [| c r]; [reflexivity |].
    apply Forall_cons in Hwf as [Hc Hr]. simpl in Hlen.
    cbn [quote_body].
    destruct (is_high_surrogate c) eqn:Hh.
    + destruct r as [| d r'].
      * rewrite parse_quote_unit by assumption. reflexivity.
      * destruct (is_low_surrogate d) eqn:Hl.
        -- apply Forall_cons in Hr as [Hd Hr']. simpl in Hlen.
           destruct (surrogate_raw c) as (? & ? & ?); [rewrite Hh; reflexivity |].
           destruct (surrogate_raw d) as (? & ? & ?); [rewrite Hl; apply orb_true_r |].
           cbn [app]. rewrite !parse_raw by assumption.
           rewrite IH by (assumption || lia). reflexivity.
        -- rewrite <- app_assoc, parse_quote_unit by assumption.
           rewrite IH by (assumption || lia). reflexivity.
    + rewrite <- app_assoc, parse_quote_unit by assumption.
      rewrite IH by (assumption || lia). reflexivity.
Qed.

(** A quoted string reads back as the string, whatever follows it. *)
Lemma parse_quote_body (s rest : jsstring) :
  well_formed s ->
  parse_string_body (quote_body s ++ QUOTE :: rest) = Some (s, rest).
Proof. apply (parse_quote_body_aux (length s)). lia. Qed.

Section TwoMemberObject.

Variables k1 v1 k2 v2 : jsstring.
Hypothesis wf_k1 : well_formed k1.
Hypothesis wf_v1 : well_formed v1.
Hypothesis wf_k2 : well_formed k2.
Hypothesis wf_v2 : well_formed v2.

Lemma parse_value_record (fuel : nat) (rest : jsstring) :
  parse_value (S (S (S (S fuel)))) (JSON_stringify [(k1, v1); (k2, v2)] ++ rest)
  = Some (JObj [(k1, JStr v1); (k2, JStr v2)], rest).
Proof.
  pose proof parse_quote_body as P. unfold QUOTE in P.
  unfold JSON_stringify, serialize_members, QuoteJSONString, QUOTE.
  repeat (rewrite <- ?app_assoc; cbn [app]).
  cbn. rewrite (P k1) by assumption.
  cbn. rewrite (P v1) by assumption.
  cbn. rewrite (P k2) by assumption.
  cbn. rewrite (P v2) by assumption.
  reflexivity.
Qed.

(** [JSON.parse(JSON.stringify({k1: v1, k2: v2}))] is the object again. *)
Lemma JSON_parse_stringify :
  JSON_parse (JSON_stringify [(k1, v1); (k2, v2)])
  = Some (JObj [(k1, JStr v1); (k2, JStr v2)]).
Proof.
  unfold JSON_parse.
  set (text := JSON_stringify [(k1, v1); (k2, v2)]).
  assert (Hlen : exists n, length text = S (S (S n))).
  { unfold text, JSON_stringify, serialize_members, QuoteJSONString.
    cbn [app length]. rewrite !length_app. cbn [length].
    eexists. rewrite Nat.add_succ_r. reflexivity. }
  destruct Hlen as [n ->].
  rewrite <- (app_nil_r text). unfold text.
  rewrite parse_value_record. reflexivity.
Qed.

End TwoMemberObject.

(** *** The fuel of the parser *)

Ltac len := cbn [length] in *; lia.

(** Split on the scrutinee of the first match of a hypothesis. *)
Ltac break_in H :=
  match type of H with
  | context [match ?x with _ => _ end] => destruct x eqn:?
  end.

Lemma skip_ws_length (s : jsstring) : (length (skip_ws s) <= length s)%nat.
Proof.
  induction s as [| c r IH]; cbn [skip_ws]; [lia |].
  destruct (is_ws c); len.
Qed.

Lemma parse_string_body_length_aux (n : nat) :
  forall s t rest, (length s <= n)%nat ->
    parse_string_body s = Some (t, rest) -> (length rest < length s)%nat.
Proof.
  induction n as [| n IH]; intros s t rest Hlen H.
  - destruct s; [discriminate | len].
  - destruct s as [| c r]; [discriminate |]. cbn [parse_string_body] in H.
    repeat break_in H; try discriminate; injection H as <- <-;
      try match goal with
          | E : parse_string_body _ = Some _ |- _ => apply IH in E; len
          end;
      len.
Qed.

Lemma parse_string_body_length (s t rest : jsstring) :
  parse_string_body s = Some (t, rest) -> (length rest < length s)%nat.
Proof. apply (parse_string_body_length_aux (length s)). lia. Qed.

Lemma strip_prefix_length (w s rest : jsstring) :
  strip_prefix w s = Some rest -> (length rest <= length s)%nat.
Proof.
  revert s. induction w as [| a w IH]; intros s H; cbn [strip_prefix] in H.
  - injection H as <-. lia.
  - destruct s as [| b s']; [discriminate |].
    destruct (a =? b); [| discriminate]. apply IH in H. len.
Qed.

Lemma take_digits_length (s ds rest : jsstring) :
  take_digits s = (ds, rest) -> (length rest <= length s)%nat.
Proof.
  revert ds rest. induction s as [| c r IH]; intros ds rest H; cbn [take_digits] in H.
  - injection H as <- <-. lia.
  - destruct (is_digit c).
    + destruct (take_digits r) as [ds' rest'] eqn:E. injection H as <- <-.
      specialize (IH _ _ eq_refl). len.
    + injection H as <- <-. lia.
Qed.

Ltac finish_length :=
  repeat match goal with
         | E : (_, _) = (_, _) |- _ => injection E as <- <-
         | E : Some _ = Some _ |- _ => injection E as <- <-
         | E : take_digits _ = _ |- _ => apply take_digits_length in E
         end;
  len.

Lemma parse_int_part_length (s i rest : jsstring) :
  parse_int_part s = Some (i, rest) -> (length rest < length s)%nat.
Proof.
  unfold parse_int_part. intros H.
  repeat break_in H; try discriminate; finish_length.
Qed.

Lemma parse_fraction_length (s f rest : jsstring) :
  parse_fraction s = Some (f, rest) -> (length rest <= length s)%nat.
Proof.
  unfold parse_fraction. intros H.
  repeat break_in H; try discriminate; finish_length.
Qed.

Lemma parse_exponent_length (s e rest : jsstring) :
  parse_exponent s = Some (e, rest) -> (length rest <= length s)%nat.
Proof.
  unfold parse_exponent. intros H.
  destruct s as [| c r]; [finish_length |].
  destruct ((c =? 101) || (c =? 69)); [| finish_length].
  destruct r as [| d r0]; [discriminate |].
  destruct ((d =? 43) || (d =? 45));
    destruct (take_digits _) as [ds rest'] eqn:E; destruct ds; try discriminate;
    finish_length.
Qed.

Lemma parse_number_length (s n rest : jsstring) :
  parse_number s = Some (n, rest) -> (length rest < length s)%nat.
Proof.
  unfold parse_number. intros H.
  destruct (match s with
            | [] => ([], s)
            | c :: r => if c =? 45 then ([c], r) else ([], s)
            end) as [sign s0] eqn:Hsign.
  assert (Hs0 : (length s0 <= length s)%nat)
    by (repeat break_in Hsign; finish_length).
  destruct (parse_int_part s0) as [[i s1] |] eqn:Hi; [| discriminate].
  destruct (parse_fraction s1) as [[f s2] |] eqn:Hf; [| discriminate].
  destruct (parse_exponent s2) as [[e s3] |] eqn:He; [| discriminate].
  injection H as <- <-.
  apply parse_int_part_length in Hi. apply parse_fraction_length in Hf.
  apply parse_exponent_length in He. lia.
Qed.

(** From a statement about fuel [S g'] to one about any fuel. *)
Lemma from_successor {A} (parse : nat -> jsstring -> option (A * jsstring))
    (f : nat) (s : jsstring) (a : A) (rest : jsstring) :
  (length rest < length s)%nat
  /\ (forall g', (f <= g' \/ length s - length rest <= S g')%nat ->
                 parse (S g') s = Some (a, rest)) ->
  (length rest < length s)%nat
  /\ (forall g, (S f <= g \/ length s - length rest <= g)%nat ->
                parse g s = Some (a, rest)).
Proof.
  intros [Hl Hg]. split; [exact Hl |].
  intros [| g'] Hb; [lia |]. apply Hg. lia.
Qed.

Lemma fuel_adequate (f : nat) :
  value_adequate f /\ members_adequate f /\ elements_adequate f.
Proof.
  induction f as [| f (IHv & IHm & IHe)].
  - split; [| split]; intros s x rest E; discriminate E.
  - split; [| split].
    + intros s v rest H. apply from_successor.
      cbn [parse_value] in *.
      pose proof (skip_ws_length s) as Hws.
      destruct (skip_ws s) as [| c r]; [discriminate |].
      destruct (c =? 123).
      { pose proof (skip_ws_length r) as Hwr.
        destruct (skip_ws r) as [| c' r']; [discriminate |].
        destruct (c' =? 125).
        - injection H as <- <-. split; [len | reflexivity].
        - destruct (parse_members f (c' :: r')) as [[ms rest'] |] eqn:Hm; [| discriminate].
          injection H as <- <-. apply IHm in Hm as [Hl Hg].
          split; [len |]. intros g' Hb. rewrite Hg; [reflexivity | len]. }
      destruct (c =? 91).
      { pose proof (skip_ws_length r) as Hwr.
        destruct (skip_ws r) as [| c' r']; [discriminate |].
        destruct (c' =? 93).
        - injection H as <- <-. split; [len | reflexivity].
        - destruct (parse_elements f (c' :: r')) as [[vs rest'] |] eqn:Hm; [| discriminate].
          injection H as <- <-. apply IHe in Hm as [Hl Hg].
          split; [len |]. intros g' Hb. rewrite Hg; [reflexivity | len]. }
      destruct (c =? QUOTE).
      { destruct (parse_string_body r) as [[t rest'] |] eqn:E; [| discriminate].
        injection H as <- <-. apply parse_string_body_length in E.
        split; [len | reflexivity]. }
      destruct (c =? 116).
      { destruct (strip_prefix _ r) as [rest' |] eqn:E; [| discriminate].
        injection H as <- <-. apply strip_prefix_length in E.
        split; [len | reflexivity]. }
      destruct (c =? 102).
      { destruct (strip_prefix _ r) as [rest' |] eqn:E; [| discriminate].
        injection H as <- <-. apply strip_prefix_length in E.
        split; [len | reflexivity]. }
      destruct (c =? 110).
      { destruct (strip_prefix _ r) as [rest' |] eqn:E; [| discriminate].
        injection H as <- <-. apply strip_prefix_length in E.
        split; [len | reflexivity]. }
      destruct (parse_number (c :: r)) as [[n rest'] |] eqn:E; [| discriminate].
      injection H as <- <-. apply parse_number_length in E.
      split; [len | reflexivity].
    + intros s ms rest H. apply from_successor.
      cbn [parse_members] in *.
      destruct s as [| q r]; [discriminate |].
      destruct (q =? QUOTE); [| discriminate].
      destruct (parse_string_body r) as [[k r1] |] eqn:Ek; [| discriminate].
      apply parse_string_body_length in Ek.
      pose proof (skip_ws_length r1) as Hw1.
      destruct (skip_ws r1) as [| c r2]; [discriminate |].
      destruct (c =? 58); [| discriminate].
      destruct (parse_value f r2) as [[v r3] |] eqn:Ev; [| discriminate].
      apply IHv in Ev as [Hlv Hgv].
      pose proof (skip_ws_length r3) as Hw3.
      destruct (skip_ws r3) as [| d r4] eqn:E3; [discriminate |].
      destruct (d =? 44) eqn:Ecomma.
      * pose proof (skip_ws_length r4) as Hw4.
        destruct (parse_members f (skip_ws r4)) as [[ms' rest'] |] eqn:Em; [| discriminate].
        injection H as <- <-. apply IHm in Em as [Hlm Hgm].
        split; [len |]. intros g' Hb.
        rewrite Hgv by len. rewrite E3, Ecomma. rewrite Hgm by len. reflexivity.
      * destruct (d =? 125) eqn:Eclose; [| discriminate].
        injection H as <- <-. split; [len |]. intros g' Hb.
        rewrite Hgv by len. rewrite E3, Ecomma, Eclose. reflexivity.
    + intros s vs rest H. apply from_successor.
      cbn [parse_elements] in *.
      destruct (parse_value f s) as [[v r1] |] eqn:Ev; [| discriminate].
      apply IHv in Ev as [Hlv Hgv].
      pose proof (skip_ws_length r1) as Hw1.
      destruct (skip_ws r1) as [| d r2] eqn:E1; [discriminate |].
      destruct (d =? 44) eqn:Ecomma.
      * destruct (parse_elements f r2) as [[vs' rest'] |] eqn:Ee; [| discriminate].
        injection H as <- <-. apply IHe in Ee as [Hle Hge].
        split; [len |]. intros g' Hb.
        rewrite Hgv by len. rewrite E1, Ecomma. rewrite Hge by len. reflexivity.
      * destruct (d =? 93) eqn:Eclose; [| discriminate].
        injection H as <- <-. split; [len |]. intros g' Hb.
        rewrite Hgv by len. rewrite E1, Ecomma, Eclose. reflexivity.
Qed.

(** If some fuel lets the parser read one value up to the end of the
    text, [JSON_parse] returns that value. *)
Lemma JSON_parse_any_fuel (f : nat) (text : jsstring) (v : json) (rest : jsstring) :
  parse_value f text = Some (v, rest) -> skip_ws rest = [] -> JSON_parse text = Some v.
Proof.
  intros H Hrest. unfold JSON_parse.
  destruct (fuel_adequate f) as (Hv & _ & _).
  apply Hv in H as [Hl Hg]. rewrite Hg by lia. rewrite Hrest. reflexivity.
Qed.

(** *** The metadata record *)

Lemma last_member_pair (k1 k2 : jsstring) (a b : json) :
  k1 <> k2 ->
  last_member [(k1, a); (k2, b)] k1 = Some a /\ last_member [(k1, a); (k2, b)] k2 = Some b.
Proof.
  intros Hne. cbn [last_member].
  rewrite (decide_False (P := k2 = k1)) by congruence.
  rewrite !decide_True by reflexivity. split; reflexivity.
Qed.

(** The metadata of the modal, read back by the submit handler. *)
Lemma parse_metadata_stringify (industry category : jsstring) (st : store) :
  well_formed industry -> well_formed category ->
  parse_metadata (JSON_stringify [(lit "industry", industry); (lit "category", category)]) st
  = (Ok (Some (JStr industry), Some (JStr category)), st, []).
Proof.
  intros Hi Hc. unfold parse_metadata.
  rewrite JSON_parse_stringify;
    try assumption; try (apply well_formedb_spec; vm_compute; reflexivity).
  destruct (last_member_pair (lit "industry") (lit "category") (JStr industry) (JStr category))
    as [-> ->]; [lit_neq | reflexivity].
Qed.

(** ** The fixed tables *)

Lemma own_property_In (t : table) (k v : jsstring) :
  own_property t k = Some v -> In (k, v) t.
Proof.
  induction t as [| [k' v'] t IH]; cbn; [discriminate |].
  destruct (decide (k' = k)) as [-> | _].
  - intros [= ->]. left. reflexivity.
  - intros H. right. apply IH. exact H.
Qed.

Lemma industry_entry (k v : jsstring) :
  own_property INDUSTRIES k = Some v -> well_formed k /\ k <> [] /\ v <> [].
Proof.
  intros H. apply own_property_In in H. vm_compute in H.
  repeat destruct H as [H | H]; try contradiction;
    injection H as <- <-;
    (split; [apply well_formedb_spec; reflexivity | split; discriminate]).
Qed.

Lemma category_entry (k v : jsstring) :
  own_property CATEGORIES k = Some v -> well_formed k /\ k <> [] /\ v <> [].
Proof.
  intros H. apply own_property_In in H. vm_compute in H.
  repeat destruct H as [H | H]; try contradiction;
    injection H as <- <-;
    (split; [apply well_formedb_spec; reflexivity | split; discriminate]).
Qed.

Lemma category_keys (c : jsstring) :
  c ∈ Object_keys CATEGORIES ->
  c = lit "accounting" \/ c = lit "hr" \/ c = lit "admin" \/ c = lit "sales".
Proof.
  intros H. apply list_elem_of_In in H. cbn [Object_keys CATEGORIES map fst In] in H.
  intuition.
Qed.

Lemma category_keys_well_formed (c : jsstring) :
  c ∈ Object_keys CATEGORIES -> well_formed c.
Proof.
  intros H. apply category_keys in H as [-> | [-> | [-> | ->]]];
    apply well_formedb_spec; vm_compute; reflexivity.
Qed.

Lemma get_by_string (w : world) (site : read_site) (t : table) (k v : jsstring) :
  own_property t k = Some v -> get_by w site t (Some (JStr k)) = Ok (VStr v).
Proof. intros H. cbn [get_by json_to_string]. unfold get. rewrite H. reflexivity. Qed.

(** A field that is a string, or absent, is read without a throw, by the
    string itself or by the word [undefined]. *)
Lemma get_by_field (w : world) (site : read_site) (t : table) (field : option jsstring) :
  get_by w site t (JStr <$> field) = Ok (get t (default (lit "undefined") field)).
Proof. destruct field; reflexivity. Qed.

(** ** The router *)

Lemma bind_ret_tt (h : M unit) (st : store) : (h ;; ret tt) st = h st.
Proof.
  unfold bind, ret. destruct (h st) as [[[[] | e] st1] t1]; [| reflexivity].
  rewrite app_nil_r. reflexivity.
Qed.

(** Evaluate the constraints of the listeners against a payload whose
    identifier is a literal, leaving the handlers folded. *)
Ltac match_listeners :=
  cbv -[select_industry category_action modal_submit ai_board_command app_home_opened];
  reflexivity.

Lemma listeners_select_industry (w : world) (body : action_body) :
  omap (matching w (Action (lit "select_industry") body)) listeners = [select_industry w body].
Proof. match_listeners. Qed.

Lemma listeners_category (c : jsstring) (w : world) (body : action_body) :
  c ∈ Object_keys CATEGORIES ->
  omap (matching w (Action (lit "category_" ++ c) body)) listeners
  = [category_action c w body].
Proof.
  intros H. apply category_keys in H as [-> | [-> | [-> | ->]]]; match_listeners.
Qed.

Lemma listeners_modal_submit (w : world) (ev : view_submission) :
  omap (matching w (ViewSubmission (lit "modal_submit") ev)) listeners = [modal_submit w ev].
Proof. match_listeners. Qed.

Lemma listeners_command (w : world) :
  omap (matching w (Command (lit "/ai-board"))) listeners = [ai_board_command w].
Proof. match_listeners. Qed.

Lemma listeners_home_opened (w : world) (user : jsstring) :
  omap (matching w (Event (lit "app_home_opened") user)) listeners = [app_home_opened w user].
Proof. match_listeners. Qed.

Lemma listeners_command_select (w : world) (body : action_body) :
  omap (matching w (Action (lit "command_select_industry") body)) listeners = [].
Proof. match_listeners. Qed.

(** Reduce a dispatch to the run of the one handler that matches, by the
    lemma that evaluates the constraints for the payload at hand. *)
Ltac route_by L :=
  unfold dispatch; rewrite !L; cbn [run_all]; rewrite ?bind_ret_tt.

Ltac route_category :=
  unfold dispatch; rewrite listeners_category by assumption;
  cbn [run_all]; rewrite bind_ret_tt.













(** ** Start-up validation *)

Lemma not_configured (env : gmap jsstring jsstring) (name : jsstring) :
  negb (truthy (env_get env name)) = true <-> ~ configured env name.
Proof.
  unfold configured, env_get. destruct (env !! name) as [[| c s] |]; cbn.
  - split; [intros _ (s & Hs & Hne); congruence | reflexivity].
  - split; [discriminate |].
    intros H. exfalso. apply H. eexists. split; [reflexivity | discriminate].
  - split; [intros _ (s & Hs & _); discriminate | reflexivity].
Qed.

Lemma missingEnvVars_spec (env : gmap jsstring jsstring) (name : jsstring) :
  name ∈ missingEnvVars env <-> name ∈ requiredEnvVars /\ ~ configured env name.
Proof.
  unfold missingEnvVars. rewrite !list_elem_of_In, filter_In, not_configured. reflexivity.
Qed.

(** With every value configured, loading goes on. *)
Lemma complete_configuration_continues (env : gmap jsstring jsstring) :
  (forall name, name ∈ requiredEnvVars -> configured env name) ->
  validate_environment env = Continue.
Proof.
  intros Hall. unfold validate_environment.
  destruct (missingEnvVars env) as [| m ms] eqn:E; [reflexivity |].
  assert (Hm : m ∈ missingEnvVars env) by (rewrite E; apply list_elem_of_here).
  apply missingEnvVars_spec in Hm as [Hreq Hnot]. exfalso. apply Hnot, Hall, Hreq.
Qed.

(** C8. When at least one of the four required configuration values is
    absent (its variable is unset, or set to the empty string, which the
    test [!process.env[envVar]] does not tell apart), the process exits
    with status 1, and the diagnostic is the heading followed by one line
    per missing value: the lines name every required value that is absent,
    no value that is configured, and none twice. *)
Theorem missing_configuration_refuses_start (env : gmap jsstring jsstring) :
  (exists name, name ∈ requiredEnvVars /\ ~ configured env name) ->
  exists listed,
    validate_environment env
    = Exit 1 (lit "Error: Missing required environment variables:"
              :: map (fun name => lit "- " ++ name) listed)
    /\ listed <> []
    /\ NoDup listed
    /\ (forall name, name ∈ listed <-> name ∈ requiredEnvVars /\ ~ configured env name).
Proof.
  intros (name & Hreq & Hmiss).
  assert (Hin : name ∈ missingEnvVars env) by (apply missingEnvVars_spec; auto).
  exists (missingEnvVars env).
  assert (Hne : missingEnvVars env <> []) by (intros E; rewrite E in Hin; inversion Hin).
  split; [| split; [exact Hne | split]].
  - unfold validate_environment.
    destruct (missingEnvVars env) as [| m ms]; [congruence | reflexivity].
  - unfold missingEnvVars. apply NoDup_ListNoDup, List.NoDup_filter. vm_compute.
    repeat (constructor; [cbn; intuition discriminate |]). constructor.
  - apply missingEnvVars_spec.
Qed.

Lemma missing_configuration_refuses_start_witness :
  exists listed,
    validate_environment partial_env
    = Exit 1 (lit "Error: Missing required environment variables:"
              :: map (fun name => lit "- " ++ name) listed)
    /\ (lit "OPENAI_API_KEY" ∈ listed)
    /\ (lit "SLACK_SIGNING_SECRET" ∈ listed)
    /\ (lit "SLACK_BOT_TOKEN" ∉ listed).
Proof.
  assert (Hkey : ~ configured partial_env (lit "OPENAI_API_KEY")).
  { intros (s & Hs & _). vm_compute in Hs. discriminate Hs. }
  assert (Hsecret : ~ configured partial_env (lit "SLACK_SIGNING_SECRET")).
  { intros (s & Hs & Hne). vm_compute in Hs. injection Hs as <-. apply Hne. reflexivity. }
  assert (Htoken : configured partial_env (lit "SLACK_BOT_TOKEN")).
  { exists (lit "xoxb-1"). split; [vm_compute; reflexivity | vm_compute; discriminate]. }
  destruct (missing_configuration_refuses_start partial_env) as (listed & Hexit & _ & _ & Hiff).
  - exists (lit "OPENAI_API_KEY"). split; [in_list | exact Hkey].
  - exists listed. split; [exact Hexit |].
    split; [apply Hiff; split; [in_list | exact Hkey] |].
    split; [apply Hiff; split; [in_list | exact Hsecret] |].
    intros Hin. apply Hiff in Hin as [_ Hn]. apply Hn. exact Htoken.
Defined.

(** ** The completion client *)

Lemma generateAIResponse_fails
    (w : world) (prompt : jsstring) (industry category : val) (e : error) (st : store) :
  completion_fails w e ->
  generateAIResponse w prompt industry category st
  = (Ok (VStr fallback), st,
     [ ChatCompletionsCreate
         (completion_request prompt (default_null industry) (default_null category));
       ConsoleError (lit "OpenAI API Error:") e ]).
Proof.
  unfold generateAIResponse, completions_create, first_content. run.
  intros [H | (r & H & Hr & ->)]; rewrite H; cbn; [| rewrite Hr]; reflexivity.
Qed.

Lemma generateAIResponse_answers
    (w : world) (prompt : jsstring) (industry category : val)
    (r : chat_completion) (ch : choice) (rest : list choice) (st : store) :
  completions_create_outcome w = Ok r ->
  choices r = ch :: rest ->
  generateAIResponse w prompt industry category st
  = (Ok (match message_content ch with Some s => VStr s | None => VNull end), st,
     [ ChatCompletionsCreate
         (completion_request prompt (default_null industry) (default_null category)) ]).
Proof.
  unfold generateAIResponse, completions_create, first_content. run.
  intros H Hr. rewrite H. cbn. rewrite Hr. reflexivity.
Qed.

Lemma fallback_nonempty : fallback <> [].
Proof. vm_compute. discriminate. Qed.

(** ** The home tab and the industry selection *)

(** What [updateHomeTab] does, whatever the platform answers. *)
Lemma updateHomeTab_run (w : world) (user : jsstring) (st : store) :
  updateHomeTab w user st
  = (Ok tt, st,
     ViewsPublish user (home_view (home_blocks (default ∅ (st !! user))))
     :: match views_publish_outcome w with
        | None => []
        | Some e => [ConsoleError (lit "Error updating home tab:") e]
        end).
Proof.
  unfold updateHomeTab. run. destruct (views_publish_outcome w); reflexivity.
Qed.

(** C5. For a user with no entry in the session store, opening the home
    tab publishes one view: its select menu offers exactly the 8 entries
    of [INDUSTRIES], in order; it has no button (no category section) and
    its only section text is the greeting (no label of a selected
    industry).  The store is left as it was. *)
Theorem first_home_view (w : world) (user : jsstring) (st : store) :
  st !! user = None ->
  let r := dispatch w (Event (lit "app_home_opened") user) st in
  exists v,
    published (trace_of r) = [(user, v)]
    /\ select_options (blocks v) = INDUSTRIES
    /\ length (select_options (blocks v)) = 8%nat
    /\ select_action_ids (blocks v) = [lit "select_industry"]
    /\ buttons (blocks v) = []
    /\ section_texts (blocks v)
       = [ lit "業務効率化のためのAIアシスタントへようこそ！" ++ [LF]
           ++ lit "業種を選択して始めましょう。" ]
    /\ length (blocks v) = 3%nat
    /\ store_of r = st.
Proof.
  intros Hnone. route_by listeners_home_opened.
  unfold app_home_opened, try_catch. rewrite updateHomeTab_run, Hnone.
  eexists. unfold trace_of, store_of.
  split; [destruct (views_publish_outcome w); reflexivity |].
  cbn [default home_view blocks]. unfold home_blocks, industry_of.
  rewrite lookup_empty. cbn [truthy].
  repeat split; reflexivity.
Qed.

Lemma first_home_view_witness :
  exists v,
    published (trace_of (dispatch calm (Event (lit "app_home_opened") (lit "U024BE7LH")) ∅))
    = [(lit "U024BE7LH", v)]
    /\ select_options (blocks v) = INDUSTRIES
    /\ buttons (blocks v) = [].
Proof.
  destruct (first_home_view calm (lit "U024BE7LH") ∅) as (v & Hp & Ho & _ & _ & Hb & _).
  - apply lookup_empty.
  - exists v. auto.
Defined.

Lemma industry_of_insert (userContext : session) (industry : jsstring) :
  industry_of (<[lit "industry" := industry]> userContext) = VStr industry.
Proof. unfold industry_of. rewrite lookup_insert_eq. reflexivity. Qed.

(** What [select_industry] does once the event is acknowledged. *)
Lemma select_industry_run (w : world) (body : action_body) (st : store) :
  ack_outcome w = None ->
  let st' := <[action_user body :=
                 <[lit "industry" := selected_value body]>
                   (default ∅ (st !! action_user body))]> st in
  select_industry w body st
  = (Ok tt, st',
     Ack :: ViewsPublish (action_user body)
              (home_view (home_blocks (<[lit "industry" := selected_value body]>
                                         (default ∅ (st !! action_user body)))))
         :: match views_publish_outcome w with
            | None => []
            | Some e => [ConsoleError (lit "Error updating home tab:") e]
            end).
Proof.
  intros Hack. unfold select_industry. run. rewrite Hack. cbn.
  rewrite updateHomeTab_run. rewrite lookup_insert_eq. reflexivity.
Qed.

(** In any world the store is untouched or holds the merged session. *)
Lemma select_industry_store (w : world) (body : action_body) (st : store) :
  store_of (select_industry w body st) = st
  \/ store_of (select_industry w body st)
     = <[action_user body :=
           <[lit "industry" := selected_value body]>
             (default ∅ (st !! action_user body))]> st.
Proof.
  destruct (ack_outcome w) as [e |] eqn:Hack.
  - left. unfold select_industry. run. rewrite Hack. reflexivity.
  - right. rewrite select_industry_run by assumption. reflexivity.
Qed.

(** C6. After an acknowledged selection of an industry [V] of the fixed
    set, the published home view holds exactly the 4 category buttons, in
    the order [CATEGORIES] declares them, and a label with the display
    name of [V]; firing the same selection again, in any world, leaves the
    session store as the first selection left it. *)
Theorem industry_selection_view (w w' : world) (body : action_body) (st : store)
    (V label : jsstring) :
  own_property INDUSTRIES V = Some label ->
  selected_value body = V ->
  ack_outcome w = None ->
  let r := dispatch w (Action (lit "select_industry") body) st in
  (exists v,
     published (trace_of r) = [(action_user body, v)]
     /\ buttons (blocks v)
        = map (fun '(value, text) => (value, text, lit "category_" ++ value)) CATEGORIES
     /\ length (buttons (blocks v)) = 4%nat
     /\ section_texts (blocks v)
        = [ lit "業務効率化のためのAIアシスタントへようこそ！" ++ [LF]
            ++ lit "業種を選択して始めましょう。";
            lit "*選択された業種: " ++ label ++ lit "*" ++ [LF]
            ++ lit "以下のカテゴリから選択してください：" ]
     /\ select_options (blocks v) = INDUSTRIES)
  /\ store_of (dispatch w' (Action (lit "select_industry") body) (store_of r)) = store_of r.
Proof.
  intros Hlabel HV Hack. route_by listeners_select_industry.
  destruct (industry_entry V label Hlabel) as (_ & Hne & _).
  rewrite (select_industry_run w) by assumption. rewrite HV.
  unfold trace_of, store_of at 2 3. cbn [fst snd].
  split.
  - eexists. split; [destruct (views_publish_outcome w); reflexivity |].
    cbn [home_view blocks]. unfold home_blocks.
    rewrite industry_of_insert.
    destruct V as [| c V']; [congruence |]. cbn [truthy].
    unfold selected_label. cbn [to_string]. unfold get. rewrite Hlabel.
    repeat split; reflexivity.
  - destruct (select_industry_store w' body
                (<[action_user body := <[lit "industry" := V]>
                                         (default ∅ (st !! action_user body))]> st))
      as [-> | ->]; [reflexivity |].
    rewrite HV, lookup_insert_eq. cbn [from_option id].
    rewrite !insert_insert_eq. reflexivity.
Qed.

Lemma industry_selection_view_witness :
  own_property INDUSTRIES (lit "medical") = Some (lit "医療")
  /\ store_of (dispatch quota_exceeded (Action (lit "select_industry") sample_body)
                 (store_of (dispatch calm (Action (lit "select_industry") sample_body)
                                     retail_sessions)))
     = store_of (dispatch calm (Action (lit "select_industry") sample_body) retail_sessions).
Proof.
  assert (H : own_property INDUSTRIES (lit "medical") = Some (lit "医療"))
    by (vm_compute; reflexivity).
  split; [exact H |].
  apply (industry_selection_view calm quota_exceeded sample_body retail_sessions
           (lit "medical") (lit "医療") H); reflexivity.
Defined.

(** C9. The selection handler merges into the session it finds: for a
    session that has a [category] field, after the selection of any
    industry, in any world, the session still has that field with the
    same value, as it has every field other than [industry]; and once the
    event is acknowledged [industry] is the selected value. *)
Theorem industry_selection_keeps_category
    (w : world) (body : action_body) (st : store) (userContext : session) (c : jsstring) :
  st !! action_user body = Some userContext ->
  userContext !! lit "category" = Some c ->
  let r := dispatch w (Action (lit "select_industry") body) st in
  exists userContext',
    store_of r !! action_user body = Some userContext'
    /\ userContext' !! lit "category" = Some c
    /\ (forall k, k <> lit "industry" -> userContext' !! k = userContext !! k)
    /\ (ack_outcome w = None ->
        userContext' !! lit "industry" = Some (selected_value body)).
Proof.
  intros Hs Hc. route_by listeners_select_industry.
  destruct (ack_outcome w) as [e |] eqn:Hack.
  - exists userContext. unfold select_industry. run. rewrite Hack. cbn.
    repeat split; try assumption; intros; discriminate.
  - rewrite select_industry_run by assumption. unfold store_of. cbn [fst snd].
    rewrite Hs. cbn [from_option id].
    eexists. split; [apply lookup_insert_eq |].
    split; [| split].
    + rewrite lookup_insert_ne by lit_neq. exact Hc.
    + intros k Hk. apply lookup_insert_ne. congruence.
    + intros _. apply lookup_insert_eq.
Qed.

Lemma industry_selection_keeps_category_witness :
  exists userContext',
    store_of (dispatch calm (Action (lit "select_industry") sample_body) retail_hr_sessions)
      !! lit "U024BE7LH" = Some userContext'
    /\ userContext' !! lit "category" = Some (lit "hr")
    /\ userContext' !! lit "industry" = Some (lit "medical").
Proof.
  destruct (industry_selection_keeps_category calm sample_body retail_hr_sessions
              retail_hr_session (lit "hr"))
    as (u & Hs & Hc & _ & Hi).
  - vm_compute. reflexivity.
  - vm_compute. reflexivity.
  - exists u. split; [exact Hs |]. split; [exact Hc |]. apply Hi. reflexivity.
Defined.

(** ** The category actions and the query modal *)

(** C1. For a user whose session has no industry (no session, no
    [industry] field, or an empty one), each of the four category actions
    opens no modal and leaves the session store unchanged, and the handler
    returns normally; once the event is acknowledged the trace is the
    acknowledgement alone, so nothing is logged either. *)
Theorem category_action_without_industry
    (c : jsstring) (w : world) (body : action_body) (st : store) :
  c ∈ Object_keys CATEGORIES ->
  industry_unset st (action_user body) ->
  let r := dispatch w (Action (lit "category_" ++ c) body) st in
  store_of r = st
  /\ opened (trace_of r) = []
  /\ result_of r = Ok tt
  /\ (ack_outcome w = None -> trace_of r = [Ack]).
Proof.
  intros Hc Hunset. route_category.
  unfold industry_unset, industry_of in Hunset.
  unfold category_action. run.
  destruct (ack_outcome w) as [e |]; cbn; [repeat split; intros; discriminate |].
  destruct (st !! action_user body) as [userContext |] eqn:Hs; cbn;
    [| repeat split; reflexivity].
  specialize (Hunset userContext eq_refl).
  destruct (userContext !! lit "industry") as [industry |] eqn:Hi; cbn;
    [| repeat split; reflexivity].
  cbn in Hunset. rewrite Hunset. cbn. repeat split; reflexivity.
Qed.

Lemma category_action_without_industry_witness :
  industry_unset blank_sessions (action_user sample_body)
  /\ store_of (dispatch calm (Action (lit "category_" ++ lit "hr") sample_body) blank_sessions)
     = blank_sessions
  /\ trace_of (dispatch calm (Action (lit "category_" ++ lit "hr") sample_body) blank_sessions)
     = [Ack].
Proof.
  assert (H : industry_unset blank_sessions (action_user sample_body)).
  { intros userContext Hs. vm_compute in Hs. injection Hs as <-. reflexivity. }
  split; [exact H |].
  destruct (category_action_without_industry (lit "hr") calm sample_body blank_sessions)
    as (Hstore & _ & _ & Htrace); [in_list | exact H |].
  split; [exact Hstore | apply Htrace; reflexivity].
Defined.

(** C2. For a user whose session holds a non-empty industry [industry],
    each acknowledged category action [c] opens one modal, with callback
    [modal_submit], whose private metadata is the serialisation of the
    record of [industry] and [c]; the submit handler's parse and
    destructuring of that metadata give back exactly [industry] and [c].
    The store is unchanged. *)
Theorem modal_metadata_round_trip
    (c : jsstring) (w : world) (body : action_body) (st : store)
    (userContext : session) (industry : jsstring) :
  c ∈ Object_keys CATEGORIES ->
  st !! action_user body = Some userContext ->
  userContext !! lit "industry" = Some industry ->
  industry <> [] ->
  well_formed industry ->
  ack_outcome w = None ->
  let r := dispatch w (Action (lit "category_" ++ c) body) st in
  exists v metadata,
    opened (trace_of r) = [(trigger_id body, v)]
    /\ callback_id v = Some (lit "modal_submit")
    /\ private_metadata v = Some metadata
    /\ metadata = JSON_stringify [(lit "industry", industry); (lit "category", c)]
    /\ (forall st', parse_metadata metadata st'
                    = (Ok (Some (JStr industry), Some (JStr c)), st', []))
    /\ store_of r = st.
Proof.
  intros Hc Hs Hi Hne Hwf Hack. route_category.
  unfold category_action. run. rewrite Hack. cbn. rewrite Hs. cbn. rewrite Hi.
  destruct industry as [| u industry']; [congruence |]. cbn.
  exists (query_modal c (u :: industry')). eexists.
  split; [destruct (views_open_outcome w); reflexivity |].
  split; [reflexivity |]. split; [reflexivity |]. split; [reflexivity |].
  split.
  - intros st'. apply parse_metadata_stringify;
      [assumption | apply category_keys_well_formed; assumption].
  - destruct (views_open_outcome w); reflexivity.
Qed.

Lemma modal_metadata_round_trip_witness :
  exists v metadata,
    opened (trace_of (dispatch calm (Action (lit "category_" ++ lit "hr") sample_body)
                               retail_sessions))
    = [(trigger_id sample_body, v)]
    /\ callback_id v = Some (lit "modal_submit")
    /\ private_metadata v = Some metadata
    /\ metadata = JSON_stringify [(lit "industry", lit "retail"); (lit "category", lit "hr")]
    /\ (forall st', parse_metadata metadata st'
                    = (Ok (Some (JStr (lit "retail")), Some (JStr (lit "hr"))), st', []))
    /\ store_of (dispatch calm (Action (lit "category_" ++ lit "hr") sample_body)
                          retail_sessions) = retail_sessions.
Proof.
  apply (modal_metadata_round_trip (lit "hr") calm sample_body retail_sessions
           {[ lit "industry" := lit "retail" ]} (lit "retail")).
  - in_list.
  - vm_compute. reflexivity.
  - vm_compute. reflexivity.
  - vm_compute. discriminate.
  - apply well_formedb_spec. vm_compute. reflexivity.
  - reflexivity.
Defined.

(** ** The modal submission *)

(** What the submit handler does once the event is acknowledged, the
    metadata is read, the four table reads succeed and the completion
    client has answered. *)
Lemma modal_submit_run
    (w : world) (ev : view_submission) (st : store) (industry category : option json)
    (industryLabel categoryLabel industryHeading categoryHeading response : val)
    (t : list effect) :
  ack_outcome w = None ->
  parse_metadata (submitted_metadata ev) st = (Ok (industry, category), st, []) ->
  get_by w ArgumentRead INDUSTRIES industry = Ok industryLabel ->
  get_by w ArgumentRead CATEGORIES category = Ok categoryLabel ->
  get_by w HeadingRead INDUSTRIES industry = Ok industryHeading ->
  get_by w HeadingRead CATEGORIES category = Ok categoryHeading ->
  generateAIResponse w (query_value ev) industryLabel categoryLabel st
  = (Ok response, st, t) ->
  modal_submit w ev st
  = (Ok tt, st,
     Ack :: t
     ++ ChatPostMessage
          {| channel := submit_user ev;
             message_text := response;
             message_blocks := answer_blocks industryHeading categoryHeading response |}
        :: match chat_postMessage_outcome w with
           | None => []
           | Some e => [ConsoleError (lit "Error handling modal submission:") e]
           end).
Proof.
  intros Hack Hmeta Hil Hcl Hih Hch Hgen. unfold modal_submit. run. rewrite Hack. cbn.
  rewrite Hmeta. cbn. rewrite Hil. cbn. rewrite Hcl. cbn. rewrite Hgen. cbn.
  rewrite Hih. cbn. rewrite Hch. cbn.
  destruct (chat_postMessage_outcome w); cbn; rewrite <- ?app_assoc; reflexivity.
Qed.

(** C4. On an acknowledged submission whose metadata is the serialised
    record of an industry [I] and a category [C] of the fixed sets, when
    the completion call returns a first choice with text [answer]: one
    completion request is made, with exactly two messages, the system
    instruction built from the display labels of [I] and [C] and the user
    message whose content is the query as submitted; and one message is
    posted, whose text is [answer] and whose block shows the two labels
    and [answer]. *)
Theorem modal_submit_prompt_and_answer
    (w : world) (ev : view_submission) (st : store)
    (I C industryLabel categoryLabel answer : jsstring)
    (completion : chat_completion) (first : choice) (others : list choice) :
  own_property INDUSTRIES I = Some industryLabel ->
  own_property CATEGORIES C = Some categoryLabel ->
  submitted_metadata ev = JSON_stringify [(lit "industry", I); (lit "category", C)] ->
  ack_outcome w = None ->
  completions_create_outcome w = Ok completion ->
  choices completion = first :: others ->
  message_content first = Some answer ->
  let r := dispatch w (ViewSubmission (lit "modal_submit") ev) st in
  requested (trace_of r)
  = [ {| model := lit "gpt-4";
         messages :=
           [ {| role := lit "system";
                content :=
                  lit "あなたは" ++ industryLabel ++ lit "向けの" ++ categoryLabel
                  ++ lit "専門アシスタントです。" ++ [LF]
                  ++ lit "                   専門的かつ実用的なアドバイスを提供してください。" |};
             {| role := lit "user"; content := query_value ev |} ];
         temperature := lit "0.7" |} ]
  /\ posted (trace_of r)
     = [ {| channel := submit_user ev;
            message_text := VStr answer;
            message_blocks :=
              [ BSection (mrkdwn (lit "*" ++ industryLabel ++ lit " - " ++ categoryLabel
                                  ++ lit "に関する回答*" ++ [LF; LF] ++ answer)) ] |} ]
  /\ store_of r = st
  /\ result_of r = Ok tt.
Proof.
  intros HI HC Hmeta Hack Hout Hchoices Hcontent r.
  destruct (industry_entry I industryLabel HI) as (HwfI & _ & HneI).
  destruct (category_entry C categoryLabel HC) as (HwfC & _ & HneC).
  assert (Hparse : parse_metadata (submitted_metadata ev) st
                   = (Ok (Some (JStr I), Some (JStr C)), st, []))
    by (rewrite Hmeta; apply parse_metadata_stringify; assumption).
  pose proof (generateAIResponse_answers w (query_value ev)
                (VStr industryLabel) (VStr categoryLabel)
                completion first others st Hout Hchoices) as Hgen.
  rewrite Hcontent in Hgen.
  subst r. route_by listeners_modal_submit.
  rewrite (modal_submit_run w ev st _ _ _ _ _ _ _ _ Hack Hparse
             (get_by_string w ArgumentRead INDUSTRIES I industryLabel HI)
             (get_by_string w ArgumentRead CATEGORIES C categoryLabel HC)
             (get_by_string w HeadingRead INDUSTRIES I industryLabel HI)
             (get_by_string w HeadingRead CATEGORIES C categoryLabel HC) Hgen).
  unfold result_of, store_of, trace_of. cbn [fst snd].
  split; [| split; [| split; reflexivity]].
  - destruct (chat_postMessage_outcome w); cbn [app requested omap];
      unfold completion_request, system_content, js_or;
      destruct industryLabel; [congruence | | congruence |];
      destruct categoryLabel; try congruence; reflexivity.
  - destruct (chat_postMessage_outcome w); reflexivity.
Qed.

Lemma modal_submit_prompt_and_answer_witness :
  requested (trace_of (dispatch calm (ViewSubmission (lit "modal_submit") sample_submission) ∅))
  = [ {| model := lit "gpt-4";
         messages :=
           [ {| role := lit "system";
                content :=
                  lit "あなたは小売業向けの人事専門アシスタントです。" ++ [LF]
                  ++ lit "                   専門的かつ実用的なアドバイスを提供してください。" |};
             {| role := lit "user"; content := lit "有給休暇の管理方法を教えてください" |} ];
         temperature := lit "0.7" |} ]
  /\ posted (trace_of (dispatch calm (ViewSubmission (lit "modal_submit") sample_submission) ∅))
     = [ {| channel := lit "U024BE7LH";
            message_text := VStr (lit "まず仕訳を確認してください。");
            message_blocks :=
              [ BSection (mrkdwn (lit "*小売業 - 人事に関する回答*" ++ [LF; LF]
                                  ++ lit "まず仕訳を確認してください。")) ] |} ].
Proof.
  destruct (modal_submit_prompt_and_answer calm sample_submission ∅
              (lit "retail") (lit "hr") (lit "小売業") (lit "人事")
              (lit "まず仕訳を確認してください。") sample_completion
              {| message_content := Some (lit "まず仕訳を確認してください。") |} [])
    as (Hreq & Hpost & _); try reflexivity.
  rewrite Hreq, Hpost. split; vm_compute; reflexivity.
Defined.

(** C3. On an acknowledged submission whose metadata parses to fields
    that are strings or absent (as the metadata of every modal this
    program opens does), whenever the try block of the completion client
    throws (the call is rejected with any error, or the completion has no
    first choice): the client returns the fixed fallback string and logs
    the error; the submit handler returns normally, its trace holds that
    log entry, and the one message it posts has the fallback as its text,
    which is not empty, and the fallback at the end of its block. *)
Theorem completion_failure_posts_fallback
    (w : world) (ev : view_submission) (st : store)
    (industry category : option jsstring) (e : error) :
  ack_outcome w = None ->
  parse_metadata (submitted_metadata ev) st
  = (Ok (JStr <$> industry, JStr <$> category), st, []) ->
  completion_fails w e ->
  let industryLabel := get INDUSTRIES (default (lit "undefined") industry) in
  let categoryLabel := get CATEGORIES (default (lit "undefined") category) in
  let r := dispatch w (ViewSubmission (lit "modal_submit") ev) st in
  result_of (generateAIResponse w (query_value ev) industryLabel categoryLabel st)
  = Ok (VStr fallback)
  /\ logged (trace_of (generateAIResponse w (query_value ev) industryLabel categoryLabel st))
     = [(lit "OpenAI API Error:", e)]
  /\ result_of r = Ok tt
  /\ (lit "OpenAI API Error:", e) ∈ logged (trace_of r)
  /\ posted (trace_of r)
     = [ {| channel := submit_user ev;
            message_text := VStr fallback;
            message_blocks :=
              [ BSection (mrkdwn (lit "*" ++ to_string industryLabel ++ lit " - "
                                  ++ to_string categoryLabel ++ lit "に関する回答*"
                                  ++ [LF; LF] ++ fallback)) ] |} ]
  /\ fallback <> [].
Proof.
  intros Hack Hmeta Hfail industryLabel categoryLabel r.
  pose proof (generateAIResponse_fails w (query_value ev) industryLabel categoryLabel e st Hfail)
    as Hgen.
  subst r. route_by listeners_modal_submit.
  rewrite (modal_submit_run w ev st _ _ _ _ _ _ _ _ Hack Hmeta
             (get_by_field w ArgumentRead INDUSTRIES industry)
             (get_by_field w ArgumentRead CATEGORIES category)
             (get_by_field w HeadingRead INDUSTRIES industry)
             (get_by_field w HeadingRead CATEGORIES category) Hgen).
  rewrite Hgen. unfold result_of, trace_of. cbn [fst snd].
  split; [reflexivity |]. split; [reflexivity |]. split; [reflexivity |].
  split; [| split; [| exact fallback_nonempty]].
  - destruct (chat_postMessage_outcome w); cbn; apply list_elem_of_here.
  - destruct (chat_postMessage_outcome w); reflexivity.
Qed.

Lemma completion_failure_posts_fallback_witness :
  completion_fails quota_exceeded (Rejected (lit "429 quota exceeded"))
  /\ result_of (dispatch quota_exceeded (ViewSubmission (lit "modal_submit") sample_submission) ∅)
     = Ok tt
  /\ posted (trace_of (dispatch quota_exceeded
                                (ViewSubmission (lit "modal_submit") sample_submission) ∅))
     = [ {| channel := lit "U024BE7LH";
            message_text := VStr fallback;
            message_blocks :=
              [ BSection (mrkdwn (lit "*小売業 - 人事に関する回答*" ++ [LF; LF] ++ fallback)) ] |} ].
Proof.
  assert (Hfail : completion_fails quota_exceeded (Rejected (lit "429 quota exceeded")))
    by (left; reflexivity).
  split; [exact Hfail |].
  destruct (completion_failure_posts_fallback quota_exceeded sample_submission ∅
              (Some (lit "retail")) (Some (lit "hr"))
              (Rejected (lit "429 quota exceeded")))
    as (_ & _ & Hres & _ & Hpost & _).
  - reflexivity.
  - vm_compute. reflexivity.
  - exact Hfail.
  - split; [exact Hres |]. rewrite Hpost. vm_compute. reflexivity.
Defined.

(** ** The slash command *)

(** C7. Whatever the session store holds and whatever the platform
    answers, handling the slash command leaves the store as it was and
    publishes no home view; once acknowledged, the handler sends one
    ephemeral response, the industry picker with the 8 options, and when
    that call resolves the trace is the acknowledgement and the response
    alone. *)
Theorem slash_command_keeps_sessions (w : world) (st : store) :
  let r := dispatch w (Command (lit "/ai-board")) st in
  store_of r = st
  /\ result_of r = Ok tt
  /\ published (trace_of r) = []
  /\ (ack_outcome w = None ->
      responded (trace_of r)
      = [ {| response_blocks := command_blocks; response_type := lit "ephemeral" |} ]
      /\ select_options command_blocks = INDUSTRIES)
  /\ (ack_outcome w = None -> respond_outcome w = None ->
      trace_of r = [ Ack; Respond {| response_blocks := command_blocks;
                                     response_type := lit "ephemeral" |} ]).
Proof.
  route_by listeners_command.
  unfold ai_board_command. run.
  destruct (ack_outcome w) as [e |]; cbn.
  - repeat split; intros; discriminate.
  - destruct (respond_outcome w) as [e |]; cbn;
      repeat split; intros; try discriminate; reflexivity.
Qed.

(** C10. The action listeners are those of [select_industry] and of the
    four [category_] identifiers, and no other; the select menu of the
    slash command's response carries the identifier
    [command_select_industry], which is none of them; so a selection made
    in that menu runs no handler: the store is unchanged and nothing is
    called, no view publication included. *)
Theorem command_picker_has_no_listener :
  action_ids listeners
  = [ lit "select_industry"; lit "category_accounting"; lit "category_hr";
      lit "category_admin"; lit "category_sales" ]
  /\ select_action_ids command_blocks = [ lit "command_select_industry" ]
  /\ (lit "command_select_industry" ∉ action_ids listeners)
  /\ (forall (w : world) (body : action_body) (st : store),
        dispatch w (Action (lit "command_select_industry") body) st = (Ok tt, st, [])).
Proof.
  assert (Hids : action_ids listeners
                 = [ lit "select_industry"; lit "category_accounting"; lit "category_hr";
                     lit "category_admin"; lit "category_sales" ])
    by match_listeners.
  split; [exact Hids |].
  split; [vm_compute; reflexivity |].
  split.
  - rewrite Hids. intros H. apply list_elem_of_In in H. vm_compute in H.
    repeat destruct H as [H | H]; try discriminate H. exact H.
  - intros w body st. unfold dispatch. rewrite listeners_command_select. reflexivity.
Qed.

(** ** Further properties of the handlers *)

(** The payload a listener matched, and the handler it runs. *)
Lemma matching_inv (w : world) (p : payload) (l : listener) (r : M unit) :
  matching w p l = Some r ->
  match l with
  | OnAction id h => exists body, p = Action id body /\ r = h w body
  | OnView id h => exists ev, p = ViewSubmission id ev /\ r = h w ev
  | OnCommand n h => p = Command n /\ r = h w
  | OnEvent t h => exists user, p = Event t user /\ r = h w user
  end.
Proof.
  destruct l, p; cbn [matching]; try discriminate;
    destruct (decide _) as [<- |]; try discriminate; intros [= <-]; eauto.
Qed.

Lemma run_all_preserves (hs : list (M unit)) :
  Forall preserves hs -> preserves (run_all hs).
Proof.
  induction 1 as [| h hs Hh _ IH]; intros st; [reflexivity |].
  cbn [run_all]. unfold bind, store_of.
  specialize (Hh st). unfold store_of in Hh.
  destruct (h st) as [[[[] | e] st1] t1]; cbn in Hh; subst st1; [| reflexivity].
  specialize (IH st). unfold store_of in IH.
  destruct (run_all hs st) as [[r st2] t2]. exact IH.
Qed.

Lemma updateHomeTab_preserves w user : preserves (updateHomeTab w user).
Proof. intros st. rewrite updateHomeTab_run. reflexivity. Qed.

Lemma app_home_opened_preserves w user : preserves (app_home_opened w user).
Proof.
  intros st. unfold app_home_opened, try_catch. rewrite updateHomeTab_run. reflexivity.
Qed.

Lemma category_action_preserves c w body : preserves (category_action c w body).
Proof.
  intros st. unfold category_action. run.
  destruct (ack_outcome w); cbn; [reflexivity |].
  destruct (st !! action_user body) as [userContext |]; cbn; [| reflexivity].
  destruct (userContext !! lit "industry") as [industry |]; cbn; [| reflexivity].
  destruct industry; cbn; [reflexivity |].
  destruct (views_open_outcome w); reflexivity.
Qed.

Lemma ai_board_command_preserves w : preserves (ai_board_command w).
Proof.
  intros st. unfold ai_board_command. run.
  destruct (ack_outcome w); cbn; [reflexivity |].
  destruct (respond_outcome w); reflexivity.
Qed.

(** The metadata is read without touching the store or the outside. *)
Lemma parse_metadata_pure (metadata : jsstring) (st : store) :
  (exists fields, parse_metadata metadata st = (Ok fields, st, []))
  \/ (exists e, parse_metadata metadata st = (Throw e, st, [])
                /\ (e = SyntaxError \/ e = TypeError)).
Proof.
  unfold parse_metadata.
  destruct (JSON_parse metadata) as [[] |]; cbn; eauto.
Qed.

(** The completion client always returns: it makes one call, and on a
    failure it logs once and answers with the fallback. *)
Lemma generateAIResponse_total
    (w : world) (prompt : jsstring) (industry category : val) (st : store) :
  exists v t,
    generateAIResponse w prompt industry category st
    = (Ok v, st,
       ChatCompletionsCreate
         (completion_request prompt (default_null industry) (default_null category)) :: t)
    /\ (t = [] \/ exists e, t = [ConsoleError (lit "OpenAI API Error:") e] /\ v = VStr fallback).
Proof.
  unfold generateAIResponse, completions_create, first_content. run.
  destruct (completions_create_outcome w) as [r | e]; cbn.
  - destruct (choices r) as [| ch rest]; cbn; eauto 8.
  - eauto 8.
Qed.

(** Every run of the submit handler returns with the store it was
    given, after at most one completion request and no message without a
    request. *)
Lemma modal_submit_total (w : world) (ev : view_submission) (st : store) :
  exists t,
    modal_submit w ev st = (Ok tt, st, t)
    /\ (length (requested t) <= 1)%nat
    /\ (length (posted t) <= length (requested t))%nat.
Proof.
  unfold modal_submit. run.
  destruct (ack_outcome w); cbn; [eexists; split; [reflexivity | cbn; lia] |].
  destruct (parse_metadata_pure (submitted_metadata ev) st)
    as [[[industry category] ->] | (e & -> & _)]; cbn;
    [| eexists; split; [reflexivity | cbn; lia]].
  destruct (get_by w ArgumentRead INDUSTRIES industry) as [industryLabel | e]; cbn;
    [| eexists; split; [reflexivity | cbn; lia]].
  destruct (get_by w ArgumentRead CATEGORIES category) as [categoryLabel | e]; cbn;
    [| eexists; split; [reflexivity | cbn; lia]].
  destruct (generateAIResponse_total w (query_value ev) industryLabel categoryLabel st)
    as (v & t & -> & Ht); cbn.
  destruct Ht as [-> | (e & -> & _)];
    destruct (get_by w HeadingRead INDUSTRIES industry); cbn;
    try (eexists; split; [reflexivity | cbn; lia]);
    destruct (get_by w HeadingRead CATEGORIES category); cbn;
    try (eexists; split; [reflexivity | cbn; lia]);
    destruct (chat_postMessage_outcome w); cbn;
    eexists; split; try reflexivity; cbn; lia.
Qed.

Lemma modal_submit_preserves w ev : preserves (modal_submit w ev).
Proof.
  intros st. destruct (modal_submit_total w ev st) as (t & -> & _). reflexivity.
Qed.

Ltac frame_case :=
  intros w p h Hp Hm; apply matching_inv in Hm; cbn beta iota in Hm;
  repeat match type of Hm with
         | ex _ => destruct Hm as [? Hm]
         | _ /\ _ => destruct Hm as [? Hm]
         end;
  subst;
  auto using category_action_preserves, modal_submit_preserves,
             ai_board_command_preserves, app_home_opened_preserves.

Lemma listeners_frame : Forall writes_on_selection_only listeners.
Proof.
  unfold listeners. repeat apply Forall_app_2.
  - apply Forall_cons_2; [| apply Forall_nil_2].
    intros w p h Hp Hm. apply matching_inv in Hm as (body & -> & _).
    exfalso. apply (Hp body). reflexivity.
  - apply Forall_map. apply Forall_forall. intros c _. frame_case.
  - repeat (apply Forall_cons_2; [frame_case |]). apply Forall_nil_2.
Qed.

Lemma matched_handlers (P : M unit -> Prop) (w : world) (p : payload) :
  (forall l h, l ∈ listeners -> matching w p l = Some h -> P h) ->
  Forall P (omap (matching w p) listeners).
Proof.
  intros H. apply Forall_forall. intros h Hh.
  apply list_elem_of_omap in Hh as (l & Hl & Hm). eauto.
Qed.

(** X2. Only the selection of an industry writes the session store: any
    other payload (a category action, a modal submission, the slash
    command, a home-tab opening, or one no listener matches) leaves every
    session as it was, whatever the outside world answers. *)
Theorem only_selection_writes (w : world) (p : payload) (st : store) :
  (forall body, p <> Action (lit "select_industry") body) ->
  store_of (dispatch w p st) = st.
Proof.
  intros Hp. apply run_all_preserves. apply matched_handlers.
  intros l h Hl Hm. pose proof listeners_frame as F.
  rewrite Forall_forall in F. exact (F l Hl w p h Hp Hm).
Qed.

Lemma only_selection_writes_witness :
  store_of (dispatch quota_exceeded (ViewSubmission (lit "modal_submit") sample_submission)
                     retail_hr_sessions) = retail_hr_sessions.
Proof.
  apply only_selection_writes. intros body E. discriminate E.
Defined.

(** X3. Sessions are independent: a payload changes no session other
    than that of the user who selected an industry. *)
Theorem selection_is_per_user (w : world) (p : payload) (st : store) (user : jsstring) :
  (forall body, p = Action (lit "select_industry") body -> action_user body <> user) ->
  store_of (dispatch w p st) !! user = st !! user.
Proof.
  intros Hp.
  assert (Hcase : (exists body, p = Action (lit "select_industry") body)
                  \/ (forall body, p <> Action (lit "select_industry") body)).
  { destruct p as [id body | | |]; try (right; intros b E; discriminate E).
    destruct (decide (id = lit "select_industry")) as [-> | Hne].
    - left. eauto.
    - right. intros b E. injection E as E _. congruence. }
  destruct Hcase as [(body & ->) | Hother].
  - route_by listeners_select_industry.
    destruct (select_industry_store w body st) as [-> | ->]; [reflexivity |].
    apply lookup_insert_ne. apply Hp. reflexivity.
  - f_equal. apply run_all_preserves. apply matched_handlers.
    intros l h Hl Hm. pose proof listeners_frame as F.
    rewrite Forall_forall in F. exact (F l Hl w p h Hother Hm).
Qed.

Lemma try_catch_await_first (ev : effect) (o : option error) (k : M unit)
    (hdl : error -> M unit) (st : store) :
  exists t, trace_of (try_catch (await ev o ;; k) hdl st) = ev :: t.
Proof.
  run. destruct o as [e |]; cbn.
  - destruct (hdl e st) as [[r st2] t2]. eauto.
  - destruct (k st) as [[[[] | e] st1] t1]; cbn; [eauto |].
    destruct (hdl e st1) as [[r st2] t2]. eauto.
Qed.

Lemma try_catch_await_rejected (ev : effect) (e : error) (k : M unit)
    (label : jsstring) (st : store) :
  try_catch (await ev (Some e) ;; k) (fun error => console_error label error) st
  = (Ok tt, st, [ev; ConsoleError label e]).
Proof. reflexivity. Qed.

Lemma run_all_acks (h : M unit) (hs : list (M unit)) (st : store) :
  Forall acks_at_once (h :: hs) -> exists t, trace_of (run_all (h :: hs) st) = Ack :: t.
Proof.
  intros F. apply Forall_cons in F as [Hh _].
  cbn [run_all]. unfold bind, trace_of. destruct (Hh st) as [t Ht]. unfold trace_of in Ht.
  destruct (h st) as [[[[] | e] st1] t1]; cbn in Ht; subst t1; [| eauto].
  destruct (run_all hs st1) as [[r' st2] t2]. cbn. eauto.
Qed.

Lemma run_all_stops (e : error) (hs : list (M unit)) :
  Forall (stops_on e) hs -> stops_on e (run_all hs).
Proof.
  induction 1 as [| h r Hh _ IH]; intros st; [split; [reflexivity | constructor] |].
  cbn [run_all]. unfold bind, store_of, trace_of.
  destruct (Hh st) as [Hs Ht]. unfold store_of, trace_of in Hs, Ht.
  destruct (h st) as [[[[] | e'] st1] t1]; cbn in Hs, Ht; subst st1; [| split; auto].
  destruct (IH st) as [Hs' Ht']. unfold store_of, trace_of in Hs', Ht'.
  destruct (run_all r st) as [[r' st2] t2]. cbn in *. split; [exact Hs' |].
  apply Forall_app_2; assumption.
Qed.

Ltac acking_case :=
  intros w p h Hp Hm; apply matching_inv in Hm; cbn beta iota in Hm;
  repeat match type of Hm with
         | ex _ => destruct Hm as [? Hm]
         | _ /\ _ => destruct Hm as [? Hm]
         end;
  subst; first [exfalso; exact Hp | intros st; apply try_catch_await_first].

Lemma listeners_ack : Forall acks_when_due listeners.
Proof.
  unfold listeners. repeat apply Forall_app_2.
  - apply Forall_cons_2; [acking_case | apply Forall_nil_2].
  - apply Forall_map. apply Forall_forall. intros c _. acking_case.
  - repeat (apply Forall_cons_2; [acking_case |]). apply Forall_nil_2.
Qed.

Ltac stopped He :=
  intros st;
  unfold select_industry, category_action, modal_submit, ai_board_command;
  rewrite He, try_catch_await_rejected;
  split; [reflexivity |];
  repeat (apply Forall_cons_2; [first [left; reflexivity | right; eexists; reflexivity] |]);
  apply Forall_nil_2.

Ltac stopping_case :=
  intros w p h e He Hp Hm; apply matching_inv in Hm; cbn beta iota in Hm;
  repeat match type of Hm with
         | ex _ => destruct Hm as [? Hm]
         | _ /\ _ => destruct Hm as [? Hm]
         end;
  subst; first [exfalso; exact Hp | stopped He].

Lemma listeners_stop : Forall stops_when_ack_fails listeners.
Proof.
  unfold listeners. repeat apply Forall_app_2.
  - apply Forall_cons_2; [stopping_case | apply Forall_nil_2].
  - apply Forall_map. apply Forall_forall. intros c _. stopping_case.
  - repeat (apply Forall_cons_2; [stopping_case |]). apply Forall_nil_2.
Qed.

(** X4. Every handler of an action, a view submission or a command
    acknowledges before it does anything else: when a listener matches
    such a payload, the trace begins with the acknowledgement; when none
    does, nothing is called at all. *)
Theorem acknowledgement_comes_first (w : world) (p : payload) (st : store) :
  acknowledged p ->
  ((exists l h, l ∈ listeners /\ matching w p l = Some h) ->
   exists t, trace_of (dispatch w p st) = Ack :: t)
  /\ ((forall l, l ∈ listeners -> matching w p l = None) ->
      trace_of (dispatch w p st) = []).
Proof.
  intros Hp. unfold dispatch. split.
  - intros (l & h & Hl & Hm).
    assert (Hall : Forall acks_at_once (omap (matching w p) listeners)).
    { apply matched_handlers. intros l' h' Hl' Hm'. pose proof listeners_ack as F.
      rewrite Forall_forall in F. exact (F l' Hl' w p h' Hp Hm'). }
    assert (Hin : h ∈ omap (matching w p) listeners)
      by (apply list_elem_of_omap; eauto).
    destruct (omap (matching w p) listeners) as [| h0 hs]; [inversion Hin |].
    apply run_all_acks. exact Hall.
  - intros Hnone.
    assert (Hnil : omap (matching w p) listeners = []).
    { destruct (omap (matching w p) listeners) as [| h0 hs] eqn:E; [reflexivity |].
      assert (Hin : h0 ∈ omap (matching w p) listeners) by (rewrite E; apply list_elem_of_here).
      apply list_elem_of_omap in Hin as (l & Hl & Hm). rewrite (Hnone l Hl) in Hm.
      discriminate Hm. }
    rewrite Hnil. reflexivity.
Qed.

(** X5. When the acknowledgement is rejected with [e], the handler of an
    action, a view submission or a command stops there: no session is
    changed and nothing is called but [ack] and the log of [e]. *)
Theorem rejected_ack_stops_handler (w : world) (p : payload) (st : store) (e : error) :
  ack_outcome w = Some e ->
  acknowledged p ->
  store_of (dispatch w p st) = st /\ only_logs e (trace_of (dispatch w p st)).
Proof.
  intros He Hp. apply run_all_stops. apply matched_handlers.
  intros l h Hl Hm. pose proof listeners_stop as F.
  rewrite Forall_forall in F. exact (F l Hl w p h e He Hp Hm).
Qed.

Lemma modal_submit_unreadable
    (w : world) (ev : view_submission) (st : store) (e : error) :
  ack_outcome w = None ->
  parse_metadata (submitted_metadata ev) st = (Throw e, st, []) ->
  modal_submit w ev st
  = (Ok tt, st, [Ack; ConsoleError (lit "Error handling modal submission:") e]).
Proof.
  intros Hack Hmeta. unfold modal_submit. run. rewrite Hack. cbn. rewrite Hmeta. reflexivity.
Qed.

(** X6. A submission whose metadata is not JSON, or is [null], is
    dropped: the handler logs the [SyntaxError] (resp. [TypeError]) once,
    calls no completion, posts no message and returns normally. *)
Theorem malformed_metadata_posts_nothing (w : world) (ev : view_submission) (st : store) :
  ack_outcome w = None ->
  JSON_parse (submitted_metadata ev) = None \/ JSON_parse (submitted_metadata ev) = Some JNull ->
  let r := dispatch w (ViewSubmission (lit "modal_submit") ev) st in
  (exists e,
     (e = SyntaxError /\ JSON_parse (submitted_metadata ev) = None
      \/ e = TypeError /\ JSON_parse (submitted_metadata ev) = Some JNull)
     /\ trace_of r = [Ack; ConsoleError (lit "Error handling modal submission:") e])
  /\ requested (trace_of r) = []
  /\ posted (trace_of r) = []
  /\ store_of r = st
  /\ result_of r = Ok tt.
Proof.
  intros Hack Hbad r. subst r. route_by listeners_modal_submit.
  assert (Hthrow : exists e,
             (e = SyntaxError /\ JSON_parse (submitted_metadata ev) = None
              \/ e = TypeError /\ JSON_parse (submitted_metadata ev) = Some JNull)
             /\ parse_metadata (submitted_metadata ev) st = (Throw e, st, [])).
  { unfold parse_metadata. destruct Hbad as [H | H]; rewrite H; eauto. }
  destruct Hthrow as (e & He & Hmeta).
  rewrite (modal_submit_unreadable w ev st e Hack Hmeta).
  split; [exists e; split; [exact He | reflexivity] |].
  repeat split; reflexivity.
Qed.

(** X7. The submit handler never retries: in every world it makes at
    most one completion request and posts at most one message, and it
    posts only after a request was made. *)
Theorem one_request_one_message (w : world) (ev : view_submission) (st : store) :
  let t := trace_of (dispatch w (ViewSubmission (lit "modal_submit") ev) st) in
  (length (requested t) <= 1)%nat
  /\ (length (posted t) <= 1)%nat
  /\ (length (posted t) <= length (requested t))%nat.
Proof.
  cbn zeta. route_by listeners_modal_submit.
  destruct (modal_submit_total w ev st) as (t & -> & Hreq & Hpost).
  unfold trace_of. cbn [snd]. lia.
Qed.

(** X8. A completion whose first choice has no text ([content] is
    [null]) is not treated as a failure: on an acknowledged submission
    whose metadata parses to fields that are strings or absent, the
    message is posted with [null] as its text and the word [null] in its
    block, and nothing is logged unless the post itself fails. *)
Theorem null_content_is_posted_as_null
    (w : world) (ev : view_submission) (st : store) (industry category : option jsstring)
    (completion : chat_completion) (first : choice) (others : list choice) :
  ack_outcome w = None ->
  parse_metadata (submitted_metadata ev) st
  = (Ok (JStr <$> industry, JStr <$> category), st, []) ->
  completions_create_outcome w = Ok completion ->
  choices completion = first :: others ->
  message_content first = None ->
  let industryLabel := get INDUSTRIES (default (lit "undefined") industry) in
  let categoryLabel := get CATEGORIES (default (lit "undefined") category) in
  let r := dispatch w (ViewSubmission (lit "modal_submit") ev) st in
  posted (trace_of r)
  = [ {| channel := submit_user ev;
         message_text := VNull;
         message_blocks :=
           [ BSection (mrkdwn (lit "*" ++ to_string industryLabel ++ lit " - "
                               ++ to_string categoryLabel
                               ++ lit "に関する回答*" ++ [LF; LF] ++ lit "null")) ] |} ]
  /\ logged (trace_of r)
     = match chat_postMessage_outcome w with
       | None => []
       | Some e => [(lit "Error handling modal submission:", e)]
       end.
Proof.
  intros Hack Hmeta Hout Hchoices Hcontent industryLabel categoryLabel r.
  subst r. route_by listeners_modal_submit.
  pose proof (generateAIResponse_answers w (query_value ev) industryLabel categoryLabel
                completion first others st Hout Hchoices) as Hgen.
  rewrite Hcontent in Hgen.
  rewrite (modal_submit_run w ev st _ _ _ _ _ _ _ _ Hack Hmeta
             (get_by_field w ArgumentRead INDUSTRIES industry)
             (get_by_field w ArgumentRead CATEGORIES category)
             (get_by_field w HeadingRead INDUSTRIES industry)
             (get_by_field w HeadingRead CATEGORIES category) Hgen).
  unfold trace_of. cbn [snd].
  destruct (chat_postMessage_outcome w); split; reflexivity.
Qed.

Lemma get_by_undefined (w : world) (site : read_site) :
  get_by w site INDUSTRIES None = Ok VUndef /\ get_by w site CATEGORIES None = Ok VUndef.
Proof. cbn [get_by]. split; f_equal; vm_compute; reflexivity. Qed.

Lemma system_content_without_labels :
  system_content VNull VNull
  = lit "あなたは" ++ lit "向けの" ++ lit "専門アシスタントです。" ++ [LF]
    ++ lit "                   専門的かつ実用的なアドバイスを提供してください。".
Proof. vm_compute. reflexivity. Qed.

(** X17. Metadata that parses but holds neither field (an empty object,
    an array, a number) is not rejected: the completion is requested with
    both labels empty, and the posted block reads [undefined - undefined]
    where the labels go. *)
Theorem metadata_without_fields (w : world) (ev : view_submission) (st : store) :
  ack_outcome w = None ->
  parse_metadata (submitted_metadata ev) st = (Ok (None, None), st, []) ->
  let r := dispatch w (ViewSubmission (lit "modal_submit") ev) st in
  requested (trace_of r)
  = [ {| model := lit "gpt-4";
         messages :=
           [ {| role := lit "system";
                content :=
                  lit "あなたは" ++ lit "向けの" ++ lit "専門アシスタントです。" ++ [LF]
                  ++ lit "                   専門的かつ実用的なアドバイスを提供してください。" |};
             {| role := lit "user"; content := query_value ev |} ];
         temperature := lit "0.7" |} ]
  /\ exists response,
       posted (trace_of r)
       = [ {| channel := submit_user ev;
              message_text := response;
              message_blocks :=
                [ BSection (mrkdwn (lit "*" ++ lit "undefined" ++ lit " - " ++ lit "undefined"
                                    ++ lit "に関する回答*" ++ [LF; LF]
                                    ++ to_string response)) ] |} ].
Proof.
  intros Hack Hmeta r. subst r. route_by listeners_modal_submit.
  destruct (generateAIResponse_total w (query_value ev) VUndef VUndef st)
    as (v & t & Hgen & Ht).
  rewrite (modal_submit_run w ev st None None _ _ _ _ v _ Hack Hmeta
             (proj1 (get_by_undefined w ArgumentRead)) (proj2 (get_by_undefined w ArgumentRead))
             (proj1 (get_by_undefined w HeadingRead)) (proj2 (get_by_undefined w HeadingRead))
             Hgen).
  unfold trace_of, completion_request. cbn [snd default_null].
  rewrite system_content_without_labels.
  split.
  - destruct Ht as [-> | (e & -> & _)]; destruct (chat_postMessage_outcome w); reflexivity.
  - exists v. destruct Ht as [-> | (e & -> & _)]; destruct (chat_postMessage_outcome w);
      reflexivity.
Qed.

(** X9. Start-up goes on exactly when the four required variables are
    all set to non-empty strings. *)
Theorem continues_iff_configured (env : gmap jsstring jsstring) :
  validate_environment env = Continue
  <-> forall name, name ∈ requiredEnvVars -> configured env name.
Proof.
  split; [| apply complete_configuration_continues].
  intros Hcont name Hreq.
  destruct (env !! name) as [[| c s] |] eqn:E.
  - exfalso. assert (Hm : name ∈ missingEnvVars env).
    { apply missingEnvVars_spec. split; [exact Hreq |]. intros (s & Hs & Hne). congruence. }
    unfold validate_environment in Hcont.
    destruct (missingEnvVars env); [inversion Hm | discriminate Hcont].
  - exists (c :: s). split; [exact E | discriminate].
  - exfalso. assert (Hm : name ∈ missingEnvVars env).
    { apply missingEnvVars_spec. split; [exact Hreq |]. intros (s & Hs & _). congruence. }
    unfold validate_environment in Hcont.
    destruct (missingEnvVars env); [inversion Hm | discriminate Hcont].
Qed.

Lemma home_blocks_shape (userContext : session) :
  select_options (home_blocks userContext) = INDUSTRIES
  /\ select_action_ids (home_blocks userContext) = [lit "select_industry"]
  /\ buttons (home_blocks userContext)
     = if truthy (industry_of userContext)
       then map (fun '(value, text) => (value, text, lit "category_" ++ value)) CATEGORIES
       else [].
Proof.
  unfold home_blocks. destruct (truthy (industry_of userContext)); repeat split; reflexivity.
Qed.

(** X10. In every store, opening the home tab publishes one view for
    that user, always with the select menu of the 8 industries; it has no
    button when the user's session has no industry and the 4 category
    buttons otherwise; the store is untouched. *)
Theorem home_view_follows_session (w : world) (user : jsstring) (st : store) :
  let r := dispatch w (Event (lit "app_home_opened") user) st in
  exists v,
    published (trace_of r) = [(user, v)]
    /\ select_options (blocks v) = INDUSTRIES
    /\ select_action_ids (blocks v) = [lit "select_industry"]
    /\ (industry_unset st user -> buttons (blocks v) = [])
    /\ (~ industry_unset st user ->
        buttons (blocks v)
        = map (fun '(value, text) => (value, text, lit "category_" ++ value)) CATEGORIES)
    /\ store_of r = st.
Proof.
  route_by listeners_home_opened.
  unfold app_home_opened, try_catch. rewrite updateHomeTab_run.
  eexists. unfold trace_of, store_of. cbn [fst snd].
  split; [destruct (views_publish_outcome w); reflexivity |].
  cbn [home_view blocks].
  destruct (home_blocks_shape (default ∅ (st !! user))) as (Hopt & Hid & Hbut).
  split; [exact Hopt |]. split; [exact Hid |]. rewrite Hbut.
  unfold industry_unset.
  destruct (st !! user) as [userContext |]; cbn [default from_option id].
  - destruct (truthy (industry_of userContext)) eqn:Ht.
    + split; [| split; reflexivity]. intros H. specialize (H userContext eq_refl). congruence.
    + split; [reflexivity |]. split; [| reflexivity].
      intros H. exfalso. apply H. intros u [= <-]. exact Ht.
  - assert (Hempty : truthy (industry_of (∅ : session)) = false).
    { unfold industry_of. rewrite lookup_empty. reflexivity. }
    rewrite Hempty. split; [reflexivity |]. split; [| reflexivity].
    intros H. exfalso. apply H. intros u E. discriminate E.
Qed.

Lemma view_ids_listeners : view_ids listeners = [lit "modal_submit"].
Proof. match_listeners. Qed.

Lemma action_ids_listeners :
  action_ids listeners
  = [ lit "select_industry"; lit "category_accounting"; lit "category_hr";
      lit "category_admin"; lit "category_sales" ].
Proof. match_listeners. Qed.

(** X11. Every control a home view can hold is handled: the action
    identifier of its select menu and of each of its buttons has a
    listener, whatever the session. *)
Theorem home_controls_have_listeners (userContext : session) (id : jsstring) :
  id ∈ select_action_ids (home_blocks userContext)
       ++ map (fun b => b.2) (buttons (home_blocks userContext)) ->
  id ∈ action_ids listeners.
Proof.
  destruct (home_blocks_shape userContext) as (_ & -> & ->).
  rewrite action_ids_listeners. intros H. apply list_elem_of_In in H.
  destruct (truthy (industry_of userContext)); vm_compute in H;
    repeat destruct H as [<- | H]; try contradiction; in_list.
Qed.

Lemma home_controls_have_listeners_witness :
  lit "category_sales" ∈ action_ids listeners.
Proof.
  apply (home_controls_have_listeners retail_hr_session). in_list.
Defined.

(** X12. The last selection wins: two acknowledged selections of the
    same user leave the store that the second one alone leaves. *)
Theorem last_selection_wins (w1 w2 : world) (first second : action_body) (st : store) :
  ack_outcome w1 = None ->
  ack_outcome w2 = None ->
  action_user first = action_user second ->
  store_of (dispatch w2 (Action (lit "select_industry") second)
              (store_of (dispatch w1 (Action (lit "select_industry") first) st)))
  = store_of (dispatch w2 (Action (lit "select_industry") second) st).
Proof.
  intros H1 H2 Huser. route_by listeners_select_industry.
  rewrite (select_industry_run w1) by assumption.
  rewrite !(select_industry_run w2) by assumption.
  unfold store_of. cbn [fst snd].
  rewrite Huser, lookup_insert_eq. cbn [from_option id].
  rewrite !insert_insert_eq. reflexivity.
Qed.

(** X13. The selected value is not checked against [INDUSTRIES]: a
    non-empty value that is no key of the table (and names no inherited
    member) is stored as the industry, and the home view shows the 4
    category buttons under a label that reads [undefined]. *)
Theorem unknown_industry_is_accepted (w : world) (body : action_body) (st : store) :
  own_property INDUSTRIES (selected_value body) = None ->
  selected_value body ∉ Object_prototype_names ->
  selected_value body <> [] ->
  ack_outcome w = None ->
  let r := dispatch w (Action (lit "select_industry") body) st in
  (exists userContext,
     store_of r !! action_user body = Some userContext
     /\ userContext !! lit "industry" = Some (selected_value body))
  /\ exists v,
       published (trace_of r) = [(action_user body, v)]
       /\ section_texts (blocks v)
          = [ lit "業務効率化のためのAIアシスタントへようこそ！" ++ [LF]
              ++ lit "業種を選択して始めましょう。";
              lit "*選択された業種: " ++ lit "undefined" ++ lit "*" ++ [LF]
              ++ lit "以下のカテゴリから選択してください：" ]
       /\ length (buttons (blocks v)) = 4%nat.
Proof.
  intros Hown Hproto Hne Hack. route_by listeners_select_industry.
  rewrite (select_industry_run w) by assumption.
  unfold store_of, trace_of. cbn [fst snd]. split.
  - eexists. split; [apply lookup_insert_eq | apply lookup_insert_eq].
  - eexists. split; [destruct (views_publish_outcome w); reflexivity |].
    cbn [home_view blocks]. unfold home_blocks. rewrite industry_of_insert.
    destruct (selected_value body) as [| c V'] eqn:EV; [congruence |]. cbn [truthy].
    unfold selected_label. cbn [to_string]. unfold get. rewrite Hown.
    rewrite decide_False by exact Hproto. split; reflexivity.
Qed.

(** X14. A rejected home-view publication does not undo the selection:
    the session holds the selected industry, the error is logged once,
    under the label of [updateHomeTab], and the handler returns
    normally. *)
Theorem publish_failure_keeps_selection
    (w : world) (body : action_body) (st : store) (e : error) :
  ack_outcome w = None ->
  views_publish_outcome w = Some e ->
  let r := dispatch w (Action (lit "select_industry") body) st in
  (exists userContext,
     store_of r !! action_user body = Some userContext
     /\ userContext !! lit "industry" = Some (selected_value body))
  /\ logged (trace_of r) = [(lit "Error updating home tab:", e)]
  /\ result_of r = Ok tt.
Proof.
  intros Hack Hpub. route_by listeners_select_industry.
  rewrite (select_industry_run w) by assumption. rewrite Hpub.
  unfold store_of, trace_of, result_of. cbn [fst snd]. split; [| split; reflexivity].
  eexists. split; apply lookup_insert_eq.
Qed.

(** X15. The selection persists for the home tab: opening the home tab
    after an acknowledged selection publishes the very view the selection
    published. *)
Theorem reopening_home_shows_selection
    (w1 w2 : world) (body : action_body) (st : store) :
  ack_outcome w1 = None ->
  let r := dispatch w1 (Action (lit "select_industry") body) st in
  published (trace_of (dispatch w2 (Event (lit "app_home_opened") (action_user body))
                                (store_of r)))
  = published (trace_of r).
Proof.
  intros Hack. route_by listeners_select_industry. route_by listeners_home_opened.
  rewrite (select_industry_run w1) by assumption.
  unfold app_home_opened, try_catch. rewrite updateHomeTab_run.
  unfold store_of, trace_of. cbn [fst snd]. rewrite lookup_insert_eq. cbn [from_option id].
  destruct (views_publish_outcome w1); destruct (views_publish_outcome w2); reflexivity.
Qed.

(** What a category handler does for a session with an industry, once
    the event is acknowledged. *)
Lemma category_action_run
    (c : jsstring) (w : world) (body : action_body) (st : store)
    (userContext : session) (industry : jsstring) :
  ack_outcome w = None ->
  st !! action_user body = Some userContext ->
  userContext !! lit "industry" = Some industry ->
  industry <> [] ->
  category_action c w body st
  = (Ok tt, st,
     Ack :: ViewsOpen (trigger_id body) (query_modal c industry)
         :: match views_open_outcome w with
            | None => []
            | Some e => [ConsoleError (lit "Error opening modal:") e]
            end).
Proof.
  intros Hack Hs Hi Hne. unfold category_action. run. rewrite Hack. cbn.
  rewrite Hs. cbn. rewrite Hi.
  destruct industry as [| u industry']; [congruence |]. cbn.
  destruct (views_open_outcome w); reflexivity.
Qed.

Lemma system_content_labels (industryLabel categoryLabel : jsstring) :
  industryLabel <> [] -> categoryLabel <> [] ->
  system_content (VStr industryLabel) (VStr categoryLabel)
  = lit "あなたは" ++ industryLabel ++ lit "向けの" ++ categoryLabel
    ++ lit "専門アシスタントです。" ++ [LF]
    ++ lit "                   専門的かつ実用的なアドバイスを提供してください。".
Proof.
  intros Hi Hc. unfold system_content, js_or.
  destruct industryLabel; [congruence |]. destruct categoryLabel; [congruence |].
  reflexivity.
Qed.

Lemma category_key (c label : jsstring) :
  own_property CATEGORIES c = Some label -> c ∈ Object_keys CATEGORIES.
Proof.
  intros H. apply own_property_In in H. apply list_elem_of_In.
  unfold Object_keys. apply in_map_iff. exists (c, label). split; [reflexivity | exact H].
Qed.

(** X16. The three steps compose: after an acknowledged selection of an
    industry of the table, an acknowledged category action of the same
    user opens one modal, and a submission that returns this modal's
    metadata requests a completion whose system message carries the
    display labels of that industry and category and whose user message
    is the query, whether or not the completion then succeeds. *)
Theorem selection_reaches_prompt
    (w1 w2 w3 : world) (pick click : action_body) (ev : view_submission) (st : store)
    (c industryLabel categoryLabel : jsstring) :
  own_property INDUSTRIES (selected_value pick) = Some industryLabel ->
  own_property CATEGORIES c = Some categoryLabel ->
  action_user click = action_user pick ->
  ack_outcome w1 = None ->
  ack_outcome w2 = None ->
  ack_outcome w3 = None ->
  let st1 := store_of (dispatch w1 (Action (lit "select_industry") pick) st) in
  exists v metadata,
    opened (trace_of (dispatch w2 (Action (lit "category_" ++ c) click) st1))
    = [(trigger_id click, v)]
    /\ private_metadata v = Some metadata
    /\ (submitted_metadata ev = metadata ->
        requested (trace_of (dispatch w3 (ViewSubmission (lit "modal_submit") ev) st1))
        = [ {| model := lit "gpt-4";
               messages :=
                 [ {| role := lit "system";
                      content :=
                        lit "あなたは" ++ industryLabel ++ lit "向けの" ++ categoryLabel
                        ++ lit "専門アシスタントです。" ++ [LF]
                        ++ lit "                   専門的かつ実用的なアドバイスを提供してください。" |};
                   {| role := lit "user"; content := query_value ev |} ];
               temperature := lit "0.7" |} ]).
Proof.
  intros HI HC Huser H1 H2 H3 st1.
  destruct (industry_entry _ _ HI) as (HwfI & HneI & HneIL).
  destruct (category_entry _ _ HC) as (HwfC & _ & HneCL).
  pose proof (category_key _ _ HC) as Hkey.
  assert (Hs : exists userContext,
             st1 !! action_user click = Some userContext
             /\ userContext !! lit "industry" = Some (selected_value pick)).
  { subst st1. route_by listeners_select_industry.
    rewrite (select_industry_run w1) by assumption. unfold store_of. cbn [fst snd].
    rewrite Huser, lookup_insert_eq. eexists. split; [reflexivity | apply lookup_insert_eq]. }
  clearbody st1. destruct Hs as (userContext & Hs & Hind).
  route_category. route_by listeners_modal_submit.
  rewrite (category_action_run c w2 click st1 userContext (selected_value pick) H2 Hs Hind HneI).
  exists (query_modal c (selected_value pick)). eexists.
  split; [unfold trace_of; destruct (views_open_outcome w2); reflexivity |].
  split; [reflexivity |].
  intros Hmeta.
  assert (Hparse : parse_metadata (submitted_metadata ev) st1
                   = (Ok (Some (JStr (selected_value pick)), Some (JStr c)), st1, []))
    by (rewrite Hmeta; apply parse_metadata_stringify; assumption).
  destruct (generateAIResponse_total w3 (query_value ev)
              (VStr industryLabel) (VStr categoryLabel) st1) as (v & t & Hgen & Ht).
  rewrite (modal_submit_run w3 ev st1 _ _ _ _ _ _ v _ H3 Hparse
             (get_by_string w3 ArgumentRead INDUSTRIES _ industryLabel HI)
             (get_by_string w3 ArgumentRead CATEGORIES c categoryLabel HC)
             (get_by_string w3 HeadingRead INDUSTRIES _ industryLabel HI)
             (get_by_string w3 HeadingRead CATEGORIES c categoryLabel HC) Hgen).
  unfold trace_of, completion_request. cbn [snd default_null].
  rewrite system_content_labels by assumption.
  destruct Ht as [-> | (e & -> & _)]; destruct (chat_postMessage_outcome w3); reflexivity.
Qed.

Lemma selection_is_per_user_witness :
  store_of (dispatch calm (Action (lit "select_industry") sample_body) retail_sessions)
    !! lit "U0OTHER00" = retail_sessions !! lit "U0OTHER00".
Proof.
  apply (selection_is_per_user calm (Action (lit "select_industry") sample_body)
           retail_sessions (lit "U0OTHER00")).
  intros body [= <-] E. vm_compute in E. discriminate E.
Defined.

Lemma acknowledgement_comes_first_witness :
  exists t, trace_of (dispatch calm (Command (lit "/ai-board")) retail_sessions) = Ack :: t.
Proof.
  destruct (acknowledgement_comes_first calm (Command (lit "/ai-board")) retail_sessions I)
    as [Hmatched _].
  apply Hmatched.
  exists (OnCommand (lit "/ai-board") ai_board_command), (ai_board_command calm).
  split.
  - unfold listeners. rewrite !elem_of_app. right. right.
    apply list_elem_of_further, list_elem_of_here.
  - cbn [matching]. rewrite decide_True by reflexivity. reflexivity.
Defined.

Lemma rejected_ack_stops_handler_witness :
  store_of (dispatch ack_rejected (Action (lit "select_industry") sample_body) retail_sessions)
  = retail_sessions
  /\ only_logs (Rejected (lit "socket closed"))
       (trace_of (dispatch ack_rejected (Action (lit "select_industry") sample_body)
                           retail_sessions)).
Proof.
  apply (rejected_ack_stops_handler ack_rejected (Action (lit "select_industry") sample_body)
           retail_sessions (Rejected (lit "socket closed"))); [reflexivity | exact I].
Defined.

Lemma malformed_metadata_posts_nothing_witness :
  trace_of (dispatch calm (ViewSubmission (lit "modal_submit") truncated_submission) ∅)
  = [Ack; ConsoleError (lit "Error handling modal submission:") SyntaxError].
Proof.
  destruct (malformed_metadata_posts_nothing calm truncated_submission ∅)
    as ((e & [[-> _] | [_ Hnull]] & Htrace) & _).
  - reflexivity.
  - left. vm_compute. reflexivity.
  - exact Htrace.
  - vm_compute in Hnull. discriminate Hnull.
Defined.

Lemma null_content_is_posted_as_null_witness :
  posted (trace_of (dispatch content_missing
                             (ViewSubmission (lit "modal_submit") sample_submission) ∅))
  = [ {| channel := lit "U024BE7LH";
         message_text := VNull;
         message_blocks :=
           [ BSection (mrkdwn (lit "*小売業 - 人事に関する回答*" ++ [LF; LF] ++ lit "null")) ] |} ].
Proof.
  destruct (null_content_is_posted_as_null content_missing sample_submission ∅
              (Some (lit "retail")) (Some (lit "hr"))
              {| choices := [ {| message_content := None |} ] |}
              {| message_content := None |} [])
    as [Hpost _];
    [reflexivity | vm_compute; reflexivity | reflexivity | reflexivity | reflexivity |].
  rewrite Hpost. vm_compute. reflexivity.
Defined.

Lemma last_selection_wins_witness :
  store_of (dispatch calm (Action (lit "select_industry") retail_pick)
              (store_of (dispatch calm (Action (lit "select_industry") sample_body) ∅)))
  = store_of (dispatch calm (Action (lit "select_industry") retail_pick) ∅).
Proof.
  apply (last_selection_wins calm calm sample_body retail_pick ∅);
    vm_compute; reflexivity.
Defined.

Lemma unknown_industry_is_accepted_witness :
  exists v,
    published (trace_of (dispatch calm (Action (lit "select_industry") banking_pick) ∅))
    = [(lit "U024BE7LH", v)]
    /\ length (buttons (blocks v)) = 4%nat.
Proof.
  destruct (unknown_industry_is_accepted calm banking_pick ∅)
    as (_ & v & Hp & _ & Hb).
  - vm_compute. reflexivity.
  - intros H. apply list_elem_of_In in H. vm_compute in H.
    repeat destruct H as [H | H]; try discriminate H. exact H.
  - vm_compute. discriminate.
  - reflexivity.
  - exists v. split; [exact Hp | exact Hb].
Defined.

Lemma publish_failure_keeps_selection_witness :
  logged (trace_of (dispatch publish_rejected (Action (lit "select_industry") sample_body) ∅))
  = [(lit "Error updating home tab:", Rejected (lit "invalid_blocks"))].
Proof.
  destruct (publish_failure_keeps_selection publish_rejected sample_body ∅
              (Rejected (lit "invalid_blocks")))
    as (_ & Hlog & _); [reflexivity | reflexivity | exact Hlog].
Defined.

Lemma reopening_home_shows_selection_witness :
  published (trace_of (dispatch publish_rejected
                         (Event (lit "app_home_opened") (action_user sample_body))
                         (store_of (dispatch calm (Action (lit "select_industry") sample_body)
                                             retail_sessions))))
  = published (trace_of (dispatch calm (Action (lit "select_industry") sample_body)
                                  retail_sessions)).
Proof.
  apply (reopening_home_shows_selection calm publish_rejected sample_body retail_sessions).
  reflexivity.
Defined.

Lemma selection_reaches_prompt_witness :
  requested (trace_of (dispatch quota_exceeded
                         (ViewSubmission (lit "modal_submit") medical_hr_submission)
                         (store_of (dispatch calm (Action (lit "select_industry") sample_body)
                                             ∅))))
  = [ {| model := lit "gpt-4";
         messages :=
           [ {| role := lit "system";
                content :=
                  lit "あなたは" ++ lit "医療" ++ lit "向けの" ++ lit "人事"
                  ++ lit "専門アシスタントです。" ++ [LF]
                  ++ lit "                   専門的かつ実用的なアドバイスを提供してください。" |};
             {| role := lit "user"; content := query_value medical_hr_submission |} ];
         temperature := lit "0.7" |} ].
Proof.
  destruct (selection_reaches_prompt calm calm quota_exceeded sample_body retail_pick
              medical_hr_submission ∅ (lit "hr") (lit "医療") (lit "人事"))
    as (v & metadata & Hopen & Hmeta & Hreq);
    [vm_compute; reflexivity | vm_compute; reflexivity | vm_compute; reflexivity
     | reflexivity | reflexivity | reflexivity |].
  apply Hreq. vm_compute in Hopen. injection Hopen as <-. injection Hmeta as <-.
  vm_compute. reflexivity.
Defined.

Lemma metadata_without_fields_witness :
  exists response,
    posted (trace_of (dispatch calm
                        (ViewSubmission (lit "modal_submit") empty_object_submission) ∅))
    = [ {| channel := lit "U024BE7LH";
           message_text := response;
           message_blocks :=
             [ BSection (mrkdwn (lit "*" ++ lit "undefined" ++ lit " - " ++ lit "undefined"
                                 ++ lit "に関する回答*" ++ [LF; LF]
                                 ++ to_string response)) ] |} ].
Proof.
  destruct (metadata_without_fields calm empty_object_submission ∅) as (_ & response & Hp).
  - reflexivity.
  - vm_compute. reflexivity.
  - exists response. exact Hp.
Defined.

Lemma requested_app (t1 t2 : list effect) :
  requested (t1 ++ t2) = requested t1 ++ requested t2.
Proof. apply omap_app. Qed.

Lemma posted_app (t1 t2 : list effect) : posted (t1 ++ t2) = posted t1 ++ posted t2.
Proof. apply omap_app. Qed.

Lemma run_all_asks_nothing (hs : list (M unit)) :
  Forall asks_nothing hs -> asks_nothing (run_all hs).
Proof.
  induction 1 as [| h r Hh _ IH]; intros st; [split; reflexivity |].
  cbn [run_all]. unfold bind, trace_of.
  destruct (Hh st) as [Hr Hp]. unfold trace_of in Hr, Hp.
  destruct (h st) as [[[[] | e] st1] t1]; cbn [snd] in Hr, Hp; [| split; assumption].
  destruct (IH st1) as [Hr' Hp']. unfold trace_of in Hr', Hp'.
  destruct (run_all r st1) as [[r' st2] t2]. cbn [snd] in *.
  rewrite requested_app, posted_app, Hr, Hp, Hr', Hp'. split; reflexivity.
Qed.

Lemma select_industry_asks_nothing w body : asks_nothing (select_industry w body).
Proof.
  intros st. destruct (ack_outcome w) as [e |] eqn:Hack.
  - unfold select_industry. rewrite Hack, try_catch_await_rejected. split; reflexivity.
  - rewrite select_industry_run by assumption. unfold trace_of. cbn [snd].
    destruct (views_publish_outcome w); split; reflexivity.
Qed.

Lemma category_action_asks_nothing c w body : asks_nothing (category_action c w body).
Proof.
  intros st. unfold category_action. run.
  destruct (ack_outcome w); cbn; [split; reflexivity |].
  destruct (st !! action_user body) as [userContext |]; cbn; [| split; reflexivity].
  destruct (userContext !! lit "industry") as [industry |]; cbn; [| split; reflexivity].
  destruct industry; cbn; [split; reflexivity |].
  destruct (views_open_outcome w); split; reflexivity.
Qed.

Lemma ai_board_command_asks_nothing w : asks_nothing (ai_board_command w).
Proof.
  intros st. unfold ai_board_command. run.
  destruct (ack_outcome w); cbn; [split; reflexivity |].
  destruct (respond_outcome w); split; reflexivity.
Qed.

Lemma app_home_opened_asks_nothing w user : asks_nothing (app_home_opened w user).
Proof.
  intros st. unfold app_home_opened, try_catch. rewrite updateHomeTab_run.
  unfold trace_of. cbn [snd]. destruct (views_publish_outcome w); split; reflexivity.
Qed.

Ltac asking_case :=
  intros w p h Hp Hm; apply matching_inv in Hm; cbn beta iota in Hm;
  repeat match type of Hm with
         | ex _ => destruct Hm as [? Hm]
         | _ /\ _ => destruct Hm as [? Hm]
         end;
  subst;
  auto using select_industry_asks_nothing, category_action_asks_nothing,
             ai_board_command_asks_nothing, app_home_opened_asks_nothing.

Lemma listeners_ask : Forall asks_on_submission_only listeners.
Proof.
  unfold listeners. repeat apply Forall_app_2.
  - apply Forall_cons_2; [asking_case | apply Forall_nil_2].
  - apply Forall_map. apply Forall_forall. intros c _. asking_case.
  - apply Forall_cons_2.
    { intros w p h Hp Hm. apply matching_inv in Hm as (ev & -> & _).
      exfalso. apply (Hp ev). reflexivity. }
    repeat (apply Forall_cons_2; [asking_case |]). apply Forall_nil_2.
Qed.

(** X18. The completion API is called, and a message posted, by the
    modal submission alone: every other payload requests nothing and
    posts nothing. *)
Theorem completion_only_on_submission (w : world) (p : payload) (st : store) :
  (forall ev, p <> ViewSubmission (lit "modal_submit") ev) ->
  requested (trace_of (dispatch w p st)) = []
  /\ posted (trace_of (dispatch w p st)) = [].
Proof.
  intros Hp. apply run_all_asks_nothing. apply matched_handlers.
  intros l h Hl Hm. pose proof listeners_ask as F.
  rewrite Forall_forall in F. exact (F l Hl w p h Hp Hm).
Qed.

Lemma completion_only_on_submission_witness :
  requested (trace_of (dispatch calm (Action (lit "category_" ++ lit "hr") retail_pick)
                                retail_sessions)) = []
  /\ posted (trace_of (dispatch calm (Action (lit "category_" ++ lit "hr") retail_pick)
                                retail_sessions)) = [].
Proof.
  apply (completion_only_on_submission calm (Action (lit "category_" ++ lit "hr") retail_pick)
           retail_sessions).
  intros ev E. discriminate E.
Defined.

(** ** Worked examples *)

Example stringify_metadata :
  JSON_stringify [(lit "industry", lit "retail"); (lit "category", lit "hr")]
  = with_quotes (lit "{'industry':'retail','category':'hr'}").
Proof. vm_compute. reflexivity. Qed.

(** A quote, a backslash, a line feed, U+0001, the pair of U+1F600 and a
    low surrogate on its own. *)
Example stringify_escapes :
  JSON_stringify [(lit "k", [34; 92; 10; 1; 55357; 56832; 56832])]
  = with_quotes (lit "{'k':'") ++ [92; 34; 92; 92] ++ lit "\n\u0001" ++ [55357; 56832]
    ++ lit "\ude00" ++ with_quotes (lit "'}").
Proof. vm_compute. reflexivity. Qed.

Example parse_escapes :
  JSON_parse (JSON_stringify [(lit "k", [34; 92; 10; 1; 55357; 56832; 56832])])
  = Some (JObj [(lit "k", JStr [34; 92; 10; 1; 55357; 56832; 56832])]).
Proof. vm_compute. reflexivity. Qed.

Example parse_nested :
  JSON_parse (with_quotes (lit " { 'a' : [1, -2.5e+3, true, null], 'b':{}, 'a':'x\u0041\/' } "))
  = Some (JObj [ (lit "a", JArr [JNum (lit "1"); JNum (lit "-2.5e+3"); JBool true; JNull]);
                 (lit "b", JObj []);
                 (lit "a", JStr (lit "xA/")) ]).
Proof. vm_compute. reflexivity. Qed.

Example parse_rejects :
  JSON_parse [] = None
  /\ JSON_parse (lit "[1,]") = None
  /\ JSON_parse (lit "01") = None
  /\ JSON_parse (with_quotes (lit "{'a':1} x")) = None
  /\ JSON_parse (with_quotes (lit "{a:1}")) = None
  /\ JSON_parse ([QUOTE; 10; QUOTE]) = None.
Proof. vm_compute. repeat split; reflexivity. Qed.

Example inherited_members :
  get INDUSTRIES (lit "retail") = VStr (lit "小売業")
  /\ get INDUSTRIES (lit "banking") = VUndef
  /\ get INDUSTRIES (lit "constructor") = VNative (lit "constructor")
  /\ get_by calm ArgumentRead INDUSTRIES (Some (JArr [JStr (lit "retail")]))
     = Ok (VStr (lit "小売業"))
  /\ get_by calm ArgumentRead INDUSTRIES (Some (JNum (lit "1"))) = Ok VUndef
  /\ get_by calm ArgumentRead INDUSTRIES (Some (JObj [(lit "a", JNull)])) = Ok VUndef
  /\ get_by calm ArgumentRead INDUSTRIES (Some (JObj [(lit "toString", JNum (lit "1"))]))
     = Throw TypeError
  /\ get_by calm ArgumentRead INDUSTRIES
       (Some (JArr [JNum (lit "1"); JObj [(lit "toString", JNull)]])) = Throw TypeError.
Proof. vm_compute. repeat split; reflexivity. Qed.

(** Metadata that is not JSON: the handler logs the [SyntaxError] and
    posts nothing. *)
Example submit_with_malformed_metadata :
  dispatch calm
    (ViewSubmission (lit "modal_submit")
       {| submit_user := lit "U024BE7LH";
          submitted_metadata := lit "{industry";
          query_value := lit "?" |}) ∅
  = (Ok tt, ∅, [Ack; ConsoleError (lit "Error handling modal submission:") SyntaxError]).
Proof. vm_compute. reflexivity. Qed.

(** Metadata that is [null]: destructuring throws a [TypeError]. *)
Example submit_with_null_metadata :
  trace_of (dispatch calm
              (ViewSubmission (lit "modal_submit")
                 {| submit_user := lit "U024BE7LH";
                    submitted_metadata := lit "null";
                    query_value := lit "?" |}) ∅)
  = [Ack; ConsoleError (lit "Error handling modal submission:") TypeError].
Proof. vm_compute. reflexivity. Qed.

(** Metadata whose [industry] is an object with a [toString] member:
    reading the table throws a [TypeError] before any request is made,
    and nothing is posted. *)
Example submit_with_unprintable_industry :
  trace_of (dispatch calm
              (ViewSubmission (lit "modal_submit")
                 {| submit_user := lit "U024BE7LH";
                    submitted_metadata :=
                      with_quotes (lit "{'industry':{'toString':1},'category':'hr'}");
                    query_value := lit "?" |}) ∅)
  = [Ack; ConsoleError (lit "Error handling modal submission:") TypeError].
Proof. vm_compute. reflexivity. Qed.

(** The same value, when only the read for the heading runs out of
    stack: the request has been made, and nothing is posted. *)
Example submit_with_stack_exhausted_at_heading :
  let w :=
    {| stack_exhausted :=
         fun site _ => match site with HeadingRead => true | ArgumentRead => false end;
       ack_outcome := None; views_publish_outcome := None; views_open_outcome := None;
       chat_postMessage_outcome := None; respond_outcome := None;
       completions_create_outcome := Throw (Rejected (lit "429")) |} in
  let t :=
    trace_of (dispatch w
                (ViewSubmission (lit "modal_submit")
                   {| submit_user := lit "U024BE7LH";
                      submitted_metadata :=
                        with_quotes (lit "{'industry':[['retail']],'category':'hr'}");
                      query_value := lit "?" |}) ∅) in
  length (requested t) = 1%nat /\ posted t = []
  /\ logged t = [ (lit "OpenAI API Error:", Rejected (lit "429"));
                  (lit "Error handling modal submission:", RangeError) ].
Proof. vm_compute. repeat split; reflexivity. Qed.

(** A completion without choices is a failure the client absorbs. *)
Example completion_without_choices :
  generateAIResponse
    {| stack_exhausted := fun _ _ => false;
       ack_outcome := None; views_publish_outcome := None; views_open_outcome := None;
       chat_postMessage_outcome := None; respond_outcome := None;
       completions_create_outcome := Ok {| choices := [] |} |}
    (lit "?") VUndef VUndef ∅
  = (Ok (VStr fallback), ∅,
     [ ChatCompletionsCreate (completion_request (lit "?") VNull VNull);
       ConsoleError (lit "OpenAI API Error:") TypeError ]).
Proof. vm_compute. reflexivity. Qed.

(** A session whose industry is the empty string renders as a new one. *)
Example home_with_empty_industry :
  home_blocks {[ lit "industry" := [] ]} = home_blocks ∅.
Proof. vm_compute. reflexivity. Qed.

Example environment_complete :
  validate_environment
    (<[ lit "OPENAI_API_KEY" := lit "sk-1" ]>
       (<[ lit "SLACK_SIGNING_SECRET" := lit "s" ]> partial_env))
  = Continue.
Proof. vm_compute. reflexivity. Qed.
